(** * relay-bot: the relay-mapping store, the message router and the
      remove flow of [main.py], embedded in Rocq.

    The store keeps one JSON file, [config.json].  Every operation of
    [main.py] re-reads that file, so the embedding threads the text of the
    file through every call and works on the values [json.loads] builds from
    it.  Python values are dynamically typed; the operations below keep the
    dynamic checks of the source (a missing method is [AttributeError], a
    missing key is [KeyError], and so on) instead of assuming a shape. *)

From Stdlib Require Import ZArith NArith String Ascii List Bool Lia.
From Stdlib Require Import DecimalString DecimalFacts DecimalPos DecimalN DecimalZ.
Import ListNotations.
Local Open Scope string_scope.
Local Open Scope Z_scope.

(** ** Python values *)

Module Py.

(** The values [json.loads] can build, floats apart: floating point is
    outside this embedding (see [Json.scan]).  A [dict] is an
    association list in insertion order, as Python keeps it; its keys are
    strings, as every key read from JSON is.  Strings hold the characters
    of code point 0 to 255. *)
#[warnings="-register-all"]
Inductive pyval : Type :=
| PNone
| PBool (b : bool)
| PInt (z : Z)
| PStr (s : string)
| PList (l : list pyval)
| PDict (d : list (string * pyval)).

Definition dict := list (string * pyval).

(** [d.get(k)], as an option. *)
Fixpoint dict_get (d : dict) (k : string) : option pyval :=
  match d with
  | [] => None
  | (k', v) :: d' => if String.eqb k k' then Some v else dict_get d' k
  end.

(** [d[k] = v]: an existing key keeps its place, a new key goes last. *)
Fixpoint dict_set (d : dict) (k : string) (v : pyval) : dict :=
  match d with
  | [] => [(k, v)]
  | (k', v') :: d' =>
      if String.eqb k k' then (k', v) :: d' else (k', v') :: dict_set d' k v
  end.

(** [del d[k]] for a key that is present (absent keys are checked by the
    caller, see [py_delitem]). *)
Fixpoint dict_del (d : dict) (k : string) : dict :=
  match d with
  | [] => []
  | (k', v') :: d' =>
      if String.eqb k k' then d' else (k', v') :: dict_del d' k
  end.

Definition dict_keys (d : dict) : list string := map fst d.

(** The exceptions the modelled code can meet. *)
Inductive exn : Type :=
| AttributeError
| TypeError
| KeyError
| ValueError
| JSONDecodeError
| FileNotFoundError
| TimeoutError.

(** The outcome of a Python expression: a value, an exception, or
    [Unmodelled] when the run leaves what this embedding covers. *)
Inductive result (A : Type) : Type :=
| Ok (a : A)
| Raise (e : exn)
| Unmodelled.
Arguments Ok {A} a.
Arguments Raise {A} e.
Arguments Unmodelled {A}.

(** Python's [str.isspace] on one character below 256: the characters
    [str.strip()] removes. *)
Definition isspace (c : ascii) : bool :=
  let n := N_of_ascii c in
  ((9 <=? n) && (n <=? 13) || (28 <=? n) && (n <=? 32)
   || (n =? 133) || (n =? 160))%N.

Fixpoint lstrip_by (space : ascii -> bool) (s : string) : string :=
  match s with
  | EmptyString => EmptyString
  | String c r => if space c then lstrip_by space r else s
  end.

Fixpoint rstrip_by (space : ascii -> bool) (s : string) : string :=
  match s with
  | EmptyString => EmptyString
  | String c r =>
      match rstrip_by space r with
      | EmptyString => if space c then EmptyString else String c EmptyString
      | r' => String c r'
      end
  end.

(** [s.strip()] *)
Definition strip (s : string) : string := rstrip_by isspace (lstrip_by isspace s).

(** [repr] of an [int], which is also [str] of it. *)
Definition repr_int (z : Z) : string := NilZero.string_of_int (Z.to_int z).

(** [x.lower()] on one character below 256. *)
Definition lower_char (c : ascii) : ascii :=
  let n := N_of_ascii c in
  if ((65 <=? n) && (n <=? 90)
      || (192 <=? n) && (n <=? 222) && negb (n =? 215))%N
  then ascii_of_N (n + 32) else c.

Fixpoint lower (s : string) : string :=
  match s with
  | EmptyString => EmptyString
  | String c r => String (lower_char c) (lower r)
  end.

(** [needle in hay] for two strings. *)
Fixpoint is_substring (needle hay : string) : bool :=
  if String.prefix needle hay then true
  else match hay with
       | EmptyString => false
       | String _ r => is_substring needle r
       end.

(** [v == s] for a string [s]. *)
Definition eq_str (s : string) (v : pyval) : bool :=
  match v with
  | PStr s' => String.eqb s s'
  | _ => false
  end.

(** [v == z] for an int [z]: [True == 1] and [False == 0] hold in Python. *)
Definition eq_int (z : Z) (v : pyval) : bool :=
  match v with
  | PInt z' => Z.eqb z z'
  | PBool b => Z.eqb z (if b then 1 else 0)
  | _ => false
  end.

(** [bool(v)] *)
Definition truthy (v : pyval) : bool :=
  match v with
  | PNone => false
  | PBool b => b
  | PInt z => negb (Z.eqb z 0)
  | PStr s => negb (String.eqb s EmptyString)
  | PList l => match l with [] => false | _ => true end
  | PDict d => match d with [] => false | _ => true end
  end.

End Py.
Export Py.

(** ** The [json] module: [json.dump(_, f, indent=2)] and [json.loads] *)

Module Json.

Definition dq : ascii := "034"%char.
Definition nl : ascii := "010"%char.

Definition hex_digit (n : N) : ascii :=
  if (n <? 10)%N then ascii_of_N (48 + n) else ascii_of_N (87 + n).

(** One character of a string, as [ensure_ascii=True] writes it. *)
Definition escape_char (c : ascii) : string :=
  let n := N_of_ascii c in
  if Ascii.eqb c dq then String "\" (String dq EmptyString)
  else if Ascii.eqb c "\" then "\\"
  else if (n =? 10)%N then "\n"
  else if (n =? 13)%N then "\r"
  else if (n =? 9)%N then "\t"
  else if (n =? 8)%N then "\b"
  else if (n =? 12)%N then "\f"
  else if ((32 <=? n) && (n <=? 126))%N then String c EmptyString
  else "\u00" ++ String (hex_digit (n / 16)) (String (hex_digit (n mod 16)) EmptyString).

Fixpoint escape (s : string) : string :=
  match s with
  | EmptyString => EmptyString
  | String c r => escape_char c ++ escape r
  end.

Definition encode_str (s : string) : string :=
  String dq (escape s ++ String dq EmptyString).

Fixpoint spaces (n : nat) : string :=
  match n with
  | O => EmptyString
  | S n' => String " " (spaces n')
  end.

(** A line break followed by the indentation of nesting level [lvl]. *)
Definition newline_indent (lvl : nat) : string := String nl (spaces (2 * lvl)).

(** The text [json.dump(v, f, indent=2)] writes for [v] at nesting level
    [lvl]: items one per line, separated by a comma, a key and its value
    by a colon and a space, empty containers closed at once. *)
Fixpoint encode (lvl : nat) (v : pyval) : string :=
  match v with
  | PNone => "null"
  | PBool true => "true"
  | PBool false => "false"
  | PInt z => repr_int z
  | PStr s => encode_str s
  | PList [] => "[]"
  | PList (x :: xs) =>
      "[" ++ newline_indent (S lvl) ++ encode (S lvl) x
      ++ (fix items (l : list pyval) : string :=
            match l with
            | [] => EmptyString
            | y :: ys => "," ++ newline_indent (S lvl) ++ encode (S lvl) y ++ items ys
            end) xs
      ++ newline_indent lvl ++ "]"
  | PDict [] => "{}"
  | PDict ((k, x) :: kxs) =>
      "{" ++ newline_indent (S lvl) ++ encode_str k ++ ": " ++ encode (S lvl) x
      ++ (fix members (l : list (string * pyval)) : string :=
            match l with
            | [] => EmptyString
            | (k', y) :: l' =>
                "," ++ newline_indent (S lvl) ++ encode_str k' ++ ": "
                ++ encode (S lvl) y ++ members l'
            end) kxs
      ++ newline_indent lvl ++ "}"
  end.

Definition json_dump (v : pyval) : string := encode 0 v.

(** What a scanner returns: a value and the text after it, a syntax error,
    or [NotModelled] for a literal this embedding has no value for (a
    float, an escape above code point 255) and for exhausted nesting
    fuel. *)
Inductive scan (A : Type) : Type :=
| Scanned (a : A) (rest : string)
| Malformed
| NotModelled.
Arguments Scanned {A} a rest.
Arguments Malformed {A}.
Arguments NotModelled {A}.

(** The white space of the JSON grammar. *)
Definition is_ws (c : ascii) : bool :=
  let n := N_of_ascii c in
  ((n =? 32) || (n =? 9) || (n =? 10) || (n =? 13))%N.

Fixpoint skip_ws (s : string) : string :=
  match s with
  | EmptyString => EmptyString
  | String c r => if is_ws c then skip_ws r else s
  end.

Definition is_digit (c : ascii) : bool :=
  let n := N_of_ascii c in ((48 <=? n) && (n <=? 57))%N.

Definition unhex (c : ascii) : option N :=
  let n := N_of_ascii c in
  if ((48 <=? n) && (n <=? 57))%N then Some (n - 48)%N
  else if ((97 <=? n) && (n <=? 102))%N then Some (n - 87)%N
  else if ((65 <=? n) && (n <=? 70))%N then Some (n - 55)%N
  else None.

Definition hex4 (a b c d : ascii) : option N :=
  match unhex a, unhex b, unhex c, unhex d with
  | Some x, Some y, Some z, Some w => Some (((x * 16 + y) * 16 + z) * 16 + w)%N
  | _, _, _, _ => None
  end.

(** The character a one-letter escape stands for. *)
Definition unescape (e : ascii) : option ascii :=
  if Ascii.eqb e dq then Some dq
  else if Ascii.eqb e "\" then Some "\"%char
  else if Ascii.eqb e "/" then Some "/"%char
  else if Ascii.eqb e "b" then Some "008"%char
  else if Ascii.eqb e "f" then Some "012"%char
  else if Ascii.eqb e "n" then Some "010"%char
  else if Ascii.eqb e "r" then Some "013"%char
  else if Ascii.eqb e "t" then Some "009"%char
  else None.

Definition scan_cons (c : ascii) (r : scan string) : scan string :=
  match r with
  | Scanned s rest => Scanned (String c s) rest
  | Malformed => Malformed
  | NotModelled => NotModelled
  end.

(** The body of a string literal, after its opening quote, up to and
    including the closing quote (strict mode: a raw control character is an
    error). *)
Fixpoint scanstring (s : string) : scan string :=
  match s with
  | EmptyString => Malformed
  | String c r =>
      if Ascii.eqb c dq then Scanned EmptyString r
      else if Ascii.eqb c "\" then
        match r with
        | EmptyString => Malformed
        | String e r1 =>
            if Ascii.eqb e "u" then
              match r1 with
              | String h1 (String h2 (String h3 (String h4 r2))) =>
                  match hex4 h1 h2 h3 h4 with
                  | Some n =>
                      if (n <? 256)%N then scan_cons (ascii_of_N n) (scanstring r2)
                      else NotModelled
                  | None => Malformed
                  end
              | _ => Malformed
              end
            else
              match unescape e with
              | Some ch => scan_cons ch (scanstring r1)
              | None => Malformed
              end
        end
      else if (N_of_ascii c <? 32)%N then Malformed
      else scan_cons c (scanstring r)
  end.

(** The longest prefix of digits, and what follows it. *)
Fixpoint span_digits (s : string) : string * string :=
  match s with
  | EmptyString => (EmptyString, EmptyString)
  | String c r =>
      if is_digit c then let (ds, rest) := span_digits r in (String c ds, rest)
      else (EmptyString, s)
  end.

(** Does a fraction or an exponent follow?  Then the literal is a float. *)
Definition float_follows (rest : string) : bool :=
  match rest with
  | String c (String d r) =>
      if Ascii.eqb c "." then is_digit d
      else if Ascii.eqb c "e" || Ascii.eqb c "E" then
        if is_digit d then true
        else if Ascii.eqb d "+" || Ascii.eqb d "-" then
          match r with
          | String d' _ => is_digit d'
          | EmptyString => false
          end
        else false
      else false
  | _ => false
  end.

Definition N_of_digits (ds : string) : N :=
  match NilEmpty.uint_of_string ds with
  | Some u => N.of_uint u
  | None => 0%N
  end.

(** A number: an optional minus sign, then [0] or a digit string that does
    not start with [0]. *)
Definition scan_number (s : string) : scan pyval :=
  let (neg, s1) :=
    match s with
    | String c r => if Ascii.eqb c "-" then (true, r) else (false, s)
    | EmptyString => (false, s)
    end in
  let (ds, rest) := span_digits s1 in
  let finish (ipart rest' : string) : scan pyval :=
    if float_follows rest' then NotModelled
    else
      let n := Z.of_N (N_of_digits ipart) in
      Scanned (PInt (if neg then - n else n)) rest' in
  match ds with
  | EmptyString =>
      if neg && String.prefix "Infinity" s1 then NotModelled else Malformed
  | String c ds' =>
      if Ascii.eqb c "0" then finish "0" (ds' ++ rest) else finish ds rest
  end.

(** [after lit s] is what follows the literal [lit] at the start of [s]. *)
Fixpoint after (lit s : string) : option string :=
  match lit with
  | EmptyString => Some s
  | String a lit' =>
      match s with
      | String b s' => if Ascii.eqb a b then after lit' s' else None
      | EmptyString => None
      end
  end.

(** [scan_once] of the decoder, with the object and array loops.  [fuel]
    bounds the number of nested calls; [json_loads] passes more than a text
    can use (see [json_loads_fuel]). *)
Fixpoint scan_value (fuel : nat) (s : string) : scan pyval :=
  match fuel with
  | O => NotModelled
  | S n =>
      match s with
      | EmptyString => Malformed
      | String c r =>
          if Ascii.eqb c dq then
            match scanstring r with
            | Scanned str rest => Scanned (PStr str) rest
            | Malformed => Malformed
            | NotModelled => NotModelled
            end
          else if Ascii.eqb c "{" then
            match skip_ws r with
            | String c1 r1 =>
                if Ascii.eqb c1 "}" then Scanned (PDict []) r1
                else scan_members n [] (String c1 r1)
            | EmptyString => Malformed
            end
          else if Ascii.eqb c "[" then
            match skip_ws r with
            | String c1 r1 =>
                if Ascii.eqb c1 "]" then Scanned (PList []) r1
                else scan_items n [] (String c1 r1)
            | EmptyString => Malformed
            end
          else
            match after "null" s, after "true" s, after "false" s with
            | Some rest, _, _ => Scanned PNone rest
            | _, Some rest, _ => Scanned (PBool true) rest
            | _, _, Some rest => Scanned (PBool false) rest
            | None, None, None =>
                if String.prefix "NaN" s || String.prefix "Infinity" s
                then NotModelled
                else scan_number s
            end
      end
  end

(** The members of an object from the first character of a key on; [acc]
    holds the members read so far. *)
with scan_members (fuel : nat) (acc : dict) (s : string) : scan pyval :=
  match fuel with
  | O => NotModelled
  | S n =>
      match s with
      | EmptyString => Malformed
      | String c r =>
          if Ascii.eqb c dq then
            match scanstring r with
            | Scanned k r1 =>
                match skip_ws r1 with
                | String c2 r2 =>
                    if Ascii.eqb c2 ":" then
                      match scan_value n (skip_ws r2) with
                      | Scanned v r3 =>
                          match skip_ws r3 with
                          | String c4 r4 =>
                              if Ascii.eqb c4 "}" then Scanned (PDict (dict_set acc k v)) r4
                              else if Ascii.eqb c4 "," then
                                scan_members n (dict_set acc k v) (skip_ws r4)
                              else Malformed
                          | EmptyString => Malformed
                          end
                      | Malformed => Malformed
                      | NotModelled => NotModelled
                      end
                    else Malformed
                | EmptyString => Malformed
                end
            | Malformed => Malformed
            | NotModelled => NotModelled
            end
          else Malformed
      end
  end

(** The items of an array from the first character of an item on. *)
with scan_items (fuel : nat) (acc : list pyval) (s : string) : scan pyval :=
  match fuel with
  | O => NotModelled
  | S n =>
      match scan_value n s with
      | Scanned v r1 =>
          match skip_ws r1 with
          | String c2 r2 =>
              if Ascii.eqb c2 "]" then Scanned (PList (acc ++ [v])) r2
              else if Ascii.eqb c2 "," then scan_items n (acc ++ [v]) (skip_ws r2)
              else Malformed
          | EmptyString => Malformed
          end
      | Malformed => Malformed
      | NotModelled => NotModelled
      end
  end.

(** [json.loads(s)]: white space, one value, white space, end of text;
    anything else raises [JSONDecodeError]. *)
Definition json_loads (s : string) : result pyval :=
  match scan_value (S (2 * String.length s)) (skip_ws s) with
  | Scanned v rest =>
      match skip_ws rest with
      | EmptyString => Ok v
      | String _ _ => Raise JSONDecodeError
      end
  | Malformed => Raise JSONDecodeError
  | NotModelled => Unmodelled
  end.

End Json.
Export Json.

(** ** Dynamic operations of Python on the values above *)

Module PyOps.

(** [v.get(key, dflt)]: only a [dict] has the method. *)
Definition py_get (v : pyval) (key : string) (dflt : pyval) : result pyval :=
  match v with
  | PDict d => Ok (match dict_get d key with Some x => x | None => dflt end)
  | _ => Raise AttributeError
  end.

(** [s in v] for a string [s]: a key of a [dict], an item of a [list], a
    substring of a [str]; the other values are not iterable. *)
Definition py_contains_str (v : pyval) (s : string) : result bool :=
  match v with
  | PDict d => Ok (match dict_get d s with Some _ => true | None => false end)
  | PList l => Ok (existsb (eq_str s) l)
  | PStr hay => Ok (is_substring s hay)
  | _ => Raise TypeError
  end.

(** [z in v] for an int [z]: the keys of a [dict] read from JSON are
    strings, so none equals [z]; a [str] accepts only strings on the left. *)
Definition py_contains_int (v : pyval) (z : Z) : result bool :=
  match v with
  | PDict _ => Ok false
  | PList l => Ok (existsb (eq_int z) l)
  | _ => Raise TypeError
  end.

(** [v[key]] for a string [key]. *)
Definition py_getitem (v : pyval) (key : string) : result pyval :=
  match v with
  | PDict d =>
      match dict_get d key with
      | Some x => Ok x
      | None => Raise KeyError
      end
  | _ => Raise TypeError
  end.

(** [v[key] = x] for a string [key]; the result is [v] after the
    assignment. *)
Definition py_setitem (v : pyval) (key : string) (x : pyval) : result pyval :=
  match v with
  | PDict d => Ok (PDict (dict_set d key x))
  | _ => Raise TypeError
  end.

(** [del v[key]] for a string [key]; the result is [v] after the
    deletion. *)
Definition py_delitem (v : pyval) (key : string) : result pyval :=
  match v with
  | PDict d =>
      match dict_get d key with
      | Some _ => Ok (PDict (dict_del d key))
      | None => Raise KeyError
      end
  | _ => Raise TypeError
  end.

(** The list [l] without its first item equal to [z]. *)
Fixpoint remove_first (z : Z) (l : list pyval) : option (list pyval) :=
  match l with
  | [] => None
  | x :: l' =>
      if eq_int z x then Some l'
      else option_map (cons x) (remove_first z l')
  end.

(** [v.remove(z)]: only a [list] has the method; the result is [v] after
    the removal. *)
Definition py_remove (v : pyval) (z : Z) : result pyval :=
  match v with
  | PList l =>
      match remove_first z l with
      | Some l' => Ok (PList l')
      | None => Raise ValueError
      end
  | _ => Raise AttributeError
  end.

(** [v.append(x)]: only a [list] has the method. *)
Definition py_append (v : pyval) (x : pyval) : result pyval :=
  match v with
  | PList l => Ok (PList (l ++ [x]))
  | _ => Raise AttributeError
  end.

(** [v.setdefault(key, [])]: only a [dict] has the method.  The result is
    the value found or stored, and [v] after the call. *)
Definition py_setdefault (v : pyval) (key : string) : result (pyval * pyval) :=
  match v with
  | PDict d =>
      match dict_get d key with
      | Some x => Ok (x, v)
      | None => Ok (PList [], PDict (dict_set d key (PList [])))
      end
  | _ => Raise AttributeError
  end.

(** The digits of [s] when underscores stand only between two digits. *)
Fixpoint plain_digits (prev_digit : bool) (s : string) : option string :=
  match s with
  | EmptyString => if prev_digit then Some EmptyString else None
  | String c r =>
      if is_digit c then option_map (String c) (plain_digits true r)
      else if Ascii.eqb c "_" && prev_digit then plain_digits false r
      else None
  end.

(** The white space [int] accepts around the digits: that of [str.strip]
    without the separators of code point 28 to 31. *)
Definition int_space (c : ascii) : bool :=
  let n := N_of_ascii c in
  ((9 <=? n) && (n <=? 13) || (n =? 32) || (n =? 133) || (n =? 160))%N.

(** [int(s)] for a string: surrounding white space, a sign, decimal
    digits. *)
Definition int_of_str (s : string) : result Z :=
  let t := rstrip_by int_space (lstrip_by int_space s) in
  let (neg, body) :=
    match t with
    | String c r =>
        if Ascii.eqb c "-" then (true, r)
        else if Ascii.eqb c "+" then (false, r)
        else (false, t)
    | EmptyString => (false, t)
    end in
  match plain_digits false body with
  | Some ds =>
      let n := Z.of_N (N_of_digits ds) in Ok (if neg then - n else n)
  | None => Raise ValueError
  end.

(** [int(v)] *)
Definition py_int (v : pyval) : result Z :=
  match v with
  | PInt z => Ok z
  | PBool b => Ok (if b then 1 else 0)
  | PStr s => int_of_str s
  | _ => Raise TypeError
  end.

(** The items a [for] loop over [v] visits. *)
Definition py_iter (v : pyval) : result (list pyval) :=
  match v with
  | PList l => Ok l
  | PDict d => Ok (map PStr (dict_keys d))
  | PStr s => Ok (map (fun c => PStr (String c EmptyString)) (list_ascii_of_string s))
  | _ => Raise TypeError
  end.

End PyOps.
Export PyOps.

(** ** Code with a state that may raise *)

Module Eff.

(** A computation over a state [S]: an outcome and the state after it.  A
    raised exception keeps the changes made before it. *)
Definition eff (S A : Type) : Type := S -> result A * S.

Definition ret {S A : Type} (a : A) : eff S A := fun s => (Ok a, s).

Definition bind {S A B : Type} (m : eff S A) (k : A -> eff S B) : eff S B :=
  fun s =>
    match m s with
    | (Ok a, s') => k a s'
    | (Raise e, s') => (Raise e, s')
    | (Unmodelled, s') => (Unmodelled, s')
    end.

Definition lift {S A : Type} (r : result A) : eff S A := fun s => (r, s).

(** [try: m  except ...: handler e], where [handler e = None] means that
    no [except] clause matches [e]. *)
Definition try_except {S A : Type} (m : eff S A)
    (handler : exn -> option (eff S A)) : eff S A :=
  fun s =>
    match m s with
    | (Raise e, s') =>
        match handler e with
        | Some h => h s'
        | None => (Raise e, s')
        end
    | other => other
    end.

(** [for x in l: body x] *)
Fixpoint for_each {S A : Type} (l : list A) (body : A -> eff S unit) : eff S unit :=
  match l with
  | [] => ret tt
  | x :: l' => bind (body x) (fun _ => for_each l' body)
  end.

Declare Scope eff_scope.
Delimit Scope eff_scope with eff.
Notation "x <- m ;; k" := (bind m (fun x => k))
  (at level 61, m at next level, right associativity) : eff_scope.
Notation "m ;; k" := (bind m (fun _ => k))
  (at level 61, right associativity) : eff_scope.

End Eff.
Export Eff.
Local Open Scope eff_scope.

(** ** The config store: [loadConfig], [getRelayChannels],
       [updateRelayChannels], [removeRelayEntry] *)

Module Store.

(** The file system as the store sees it: the text of [config.json], or
    [None] when there is no such file. *)
Definition fs := option string.

Definition M : Type -> Type := eff fs.

(** [open("config.json", "r")] followed by [f.read()]. *)
Definition read_config_json : M string :=
  fun f =>
    match f with
    | Some text => (Ok text, f)
    | None => (Raise FileNotFoundError, f)
    end.

(** [with open("config.json", "w") as f: json.dump(v, f, indent=2)] *)
Definition write_config_json (v : pyval) : M unit :=
  fun _ => (Ok tt, Some (json_dump v)).

(** [{"relayChannels": {}}] *)
Definition defaultConfig : pyval := PDict [("relayChannels", PDict [])].

Definition loadConfig : M pyval :=
  try_except
    (text <- read_config_json ;;
     let content := strip text in
     if String.eqb content EmptyString then ret defaultConfig
     else lift (json_loads content))
    (fun e =>
       match e with
       | FileNotFoundError =>
           Some (write_config_json defaultConfig ;; ret defaultConfig)
       | JSONDecodeError =>
           Some (write_config_json defaultConfig ;; ret defaultConfig)
       | _ => None
       end).

Definition getRelayChannels : M pyval :=
  config <- loadConfig ;;
  lift (py_get config "relayChannels" (PDict [])).

Definition updateRelayChannels (sourceId : string) (destId : Z) : M unit :=
  config <- loadConfig ;;
  relay <- lift (py_get config "relayChannels" (PDict [])) ;;
  found <- lift (py_setdefault relay sourceId) ;;
  let (dests, relay1) := found : pyval * pyval in
  dests' <- lift (py_append dests (PInt destId)) ;;
  relay2 <- lift (py_setitem relay1 sourceId dests') ;;
  config' <- lift (py_setitem config "relayChannels" relay2) ;;
  write_config_json config'.

(** [destId = None] is the call with the default argument.  The inner
    result is [None] on the path that returns [False] from the [else]
    branch, and otherwise the mapping after the removal. *)
Definition removeRelayEntry (sourceId : string) (destId : option Z) : M bool :=
  config <- loadConfig ;;
  relayChannels <- lift (py_get config "relayChannels" (PDict [])) ;;
  present <- lift (py_contains_str relayChannels sourceId) ;;
  if negb present then ret false
  else
    removed <-
      match destId with
      | None =>
          rc <- lift (py_delitem relayChannels sourceId) ;;
          ret (Some rc)
      | Some d =>
          dests <- lift (py_getitem relayChannels sourceId) ;;
          found <- lift (py_contains_int dests d) ;;
          if found then
            dests' <- lift (py_remove dests d) ;;
            rc <- lift (py_setitem relayChannels sourceId dests') ;;
            if negb (truthy dests') then
              rc' <- lift (py_delitem rc sourceId) ;;
              ret (Some rc')
            else ret (Some rc)
          else ret None
      end ;;
    match removed with
    | None => ret false
    | Some rc =>
        config' <- lift (py_setitem config "relayChannels" rc) ;;
        write_config_json config' ;;
        ret true
    end.

End Store.
Export Store.

(** ** The bot: the message router [on_message] and the [remove] command *)

Module Bot.

(** A channel handle, named by its id; [mention] is its [.mention]. *)
Definition channel : Type := Z.

Definition mention (c : channel) : string := "<#" ++ repr_int c ++ ">".

Record message : Type := mkMessage {
  author : Z;
  author_bot : bool;
  channel_id : Z;
  content : string;
  channel_mentions : list channel
}.

(** What the bot does to the outside: [channel.send(text)] and
    [bot.process_commands(message)]. *)
Inductive event : Type :=
| Sent (to : channel) (text : string)
| ProcessCommands (m : message).

(** The state a handler runs in: the file of the store, the events
    emitted so far (oldest first), and what [bot.wait_for] will see:
    [Some m] is a message arriving, [None] is the timeout elapsing. *)
Record world : Type := mkWorld {
  config_json : fs;
  outbox : list event;
  arrivals : list (option message)
}.

Definition B : Type -> Type := eff world.

(** A store operation run inside a handler. *)
Definition store {A : Type} (m : M A) : B A :=
  fun w =>
    let (r, f) := m (config_json w) in
    (r, mkWorld f (outbox w) (arrivals w)).

Definition emit (e : event) : B unit :=
  fun w => (Ok tt, mkWorld (config_json w) (outbox w ++ [e]) (arrivals w)).

Definition send (dest : channel) (text : string) : B unit := emit (Sent dest text).

Definition process_commands (m : message) : B unit := emit (ProcessCommands m).

Section Handlers.

(** [bot.get_channel]: the channel of an id, when the bot knows one. *)
Variable get_channel : Z -> option channel.

Definition on_message (message : message) : B unit :=
  if author_bot message then ret tt
  else
    relayChannels <- store getRelayChannels ;;
    let messageChannelID := repr_int (channel_id message) in
    present <- lift (py_contains_str relayChannels messageChannelID) ;;
    if present then
      dests <- lift (py_getitem relayChannels messageChannelID) ;;
      items <- lift (py_iter dests) ;;
      for_each items (fun destId =>
        i <- lift (py_int destId) ;;
        match get_channel i with
        | Some dest => send dest (content message)
        | None => ret tt
        end)
    else process_commands message.

(** The invocation context of a command: who called it, and where. *)
Record context : Type := mkContext {
  ctx_author : Z;
  ctx_channel : channel
}.

Definition check_channel (ctx : context) (m : message) : bool :=
  Z.eqb (author m) (ctx_author ctx) && Z.eqb (channel_id m) (ctx_channel ctx).

(** The first arrival that passes [check], and the arrivals after it;
    [None] when the timeout comes first. *)
Fixpoint next_matching (check : message -> bool) (l : list (option message))
    : option message * list (option message) :=
  match l with
  | [] => (None, [])
  | None :: rest => (None, rest)
  | Some m :: rest => if check m then (Some m, rest) else next_matching check rest
  end.

(** [await bot.wait_for("message", check=check, timeout=60)] *)
Definition wait_for (check : message -> bool) : B message :=
  fun w =>
    match next_matching check (arrivals w) with
    | (Some m, rest) => (Ok m, mkWorld (config_json w) (outbox w) rest)
    | (None, rest) => (Raise TimeoutError, mkWorld (config_json w) (outbox w) rest)
    end.

(** The first mentioned channel, else the channel of the id typed. *)
Definition mentioned_or_typed (m : message) : B (option channel) :=
  match channel_mentions m with
  | c :: _ => ret (Some c)
  | [] =>
      i <- lift (int_of_str (strip (content m))) ;;
      ret (get_channel i)
  end.

(** The texts the [remove] command answers with on the [all] path. *)
Definition ask_source : string :=
  "Please mention the **source** channel you wish to modify (e.g. #general) or type channel ID:".

Definition ask_all_or_destination : string :=
  "Type `all` to remove the entire source relay, or mention a **destination** channel to remove:".

Definition removed_all (sourceChannel : channel) : string :=
  "Removed all relays from source channel " ++ mention sourceChannel ++ ".".

Definition no_relays_found : string := "No relays found for that source channel.".

Definition remove (ctx : context) : B unit :=
  send (ctx_channel ctx) ask_source ;;
  try_except
    (sourceMsg <- wait_for (check_channel ctx) ;;
     found <- mentioned_or_typed sourceMsg ;;
     match found with
     | None => send (ctx_channel ctx) "Invalid source channel. Command cancelled."
     | Some sourceChannel =>
         let sourceID := repr_int sourceChannel in
         send (ctx_channel ctx) ask_all_or_destination ;;
         destMsg <- wait_for (check_channel ctx) ;;
         if String.eqb (lower (content destMsg)) "all" then
           success <- store (removeRelayEntry sourceID None) ;;
           if success : bool then
             send (ctx_channel ctx) (removed_all sourceChannel)
           else send (ctx_channel ctx) no_relays_found
         else
           (** [Some None] is a reply that names no known channel, [None]
               a reply that is not a number (the flow has answered and
               returned). *)
           typed <-
             match channel_mentions destMsg with
             | c :: _ => ret (Some (Some c))
             | [] =>
                 try_except
                   (i <- lift (int_of_str (strip (content destMsg))) ;;
                    ret (Some (get_channel i)))
                   (fun e =>
                      match e with
                      | ValueError | JSONDecodeError =>
                          Some (send (ctx_channel ctx)
                                  "Invalid destination channel ID. Command cancelled." ;;
                                ret None)
                      | _ => None
                      end)
             end ;;
           match typed with
           | None => ret tt
           | Some None =>
               send (ctx_channel ctx) "Invalid destination channel. Command cancelled."
           | Some (Some destChannel) =>
               success <- store (removeRelayEntry sourceID (Some destChannel)) ;;
               if success : bool then
                 send (ctx_channel ctx)
                   ("Removed relay from " ++ mention sourceChannel ++ " to "
                    ++ mention destChannel ++ ".")
               else send (ctx_channel ctx) "That relay was not found."
           end
     end)
    (fun _ => Some (send (ctx_channel ctx) "Timed out or error occurred, command cancelled.")).

(** The texts the [add] command answers with. *)
Definition ask_add_source : string :=
  "Please mention the **source** channel (e.g. #general) or type channel ID:".

Definition ask_add_destination : string :=
  "Now please mention the **destination** channel or type channel ID:".

Definition relay_added (sourceChannel destChannel : channel) : string :=
  "Relay added: messages from " ++ mention sourceChannel ++ " will be sent to "
  ++ mention destChannel.

Definition cancelled : string := "Timed out or error occurred, command cancelled.".

Definition add (ctx : context) : B unit :=
  send (ctx_channel ctx) ask_add_source ;;
  try_except
    (sourceMsg <- wait_for (check_channel ctx) ;;
     foundSource <- mentioned_or_typed sourceMsg ;;
     match foundSource with
     | None => send (ctx_channel ctx) "Invalid source channel. Command cancelled."
     | Some sourceChannel =>
         send (ctx_channel ctx) ask_add_destination ;;
         destMsg <- wait_for (check_channel ctx) ;;
         foundDest <- mentioned_or_typed destMsg ;;
         match foundDest with
         | None => send (ctx_channel ctx) "Invalid destination channel. Command cancelled."
         | Some destChannel =>
             let sourceID := repr_int sourceChannel in
             let destID := destChannel in
             store (updateRelayChannels sourceID destID) ;;
             send (ctx_channel ctx) (relay_added sourceChannel destChannel)
         end
     end)
    (fun _ => Some (send (ctx_channel ctx) cancelled)).

End Handlers.

End Bot.
Export Bot.

(** * Definitions used by the statements and the proofs *)

Ltac each_char c :=
  destruct c as [[] [] [] [] [] [] [] []].

Fixpoint all_chars (p : ascii -> bool) (s : string) : bool :=
  match s with
  | EmptyString => true
  | String c r => p c && all_chars p r
  end.

(** The text after a value written by [encode]: nothing, a comma or a line
    break. *)
Definition stop (r : string) : bool :=
  match r with
  | EmptyString => true
  | String c _ => Ascii.eqb c "," || Ascii.eqb c nl
  end.

(** The first character of a value: none of them is white space. *)
Definition value_start (c : ascii) : bool :=
  Ascii.eqb c dq || Ascii.eqb c "{" || Ascii.eqb c "[" || Ascii.eqb c "n"
  || Ascii.eqb c "t" || Ascii.eqb c "f" || Ascii.eqb c "-" || is_digit c.

Fixpoint encode_items (lvl : nat) (l : list pyval) : string :=
  match l with
  | [] => EmptyString
  | y :: ys => "," ++ newline_indent lvl ++ encode lvl y ++ encode_items lvl ys
  end.

Fixpoint encode_members (lvl : nat) (d : dict) : string :=
  match d with
  | [] => EmptyString
  | (k, y) :: d' =>
      "," ++ newline_indent lvl ++ encode_str k ++ ": " ++ encode lvl y
      ++ encode_members lvl d'
  end.

(** The nesting fuel [scan_value] needs to read a value back. *)
Fixpoint weight (v : pyval) : nat :=
  match v with
  | PList l =>
      S ((fix go (l : list pyval) : nat :=
            match l with
            | [] => O
            | x :: xs => S (weight x + go xs)
            end) l)
  | PDict d =>
      S ((fix go (d : list (string * pyval)) : nat :=
            match d with
            | [] => O
            | (_, x) :: xs => S (weight x + go xs)
            end) d)
  | _ => 1%nat
  end.

Fixpoint items_weight (l : list pyval) : nat :=
  match l with
  | [] => O
  | x :: xs => S (weight x + items_weight xs)
  end.

Fixpoint members_weight (d : dict) : nat :=
  match d with
  | [] => O
  | (_, x) :: xs => S (weight x + members_weight xs)
  end.

Fixpoint nodup_keys (ks : list string) : bool :=
  match ks with
  | [] => true
  | k :: ks' => negb (existsb (String.eqb k) ks') && nodup_keys ks'
  end.

(** A value whose dicts have no key twice: what Python can hold. *)
Fixpoint valid (v : pyval) : bool :=
  match v with
  | PList l => forallb valid l
  | PDict d => nodup_keys (dict_keys d) && forallb (fun kv => valid (snd kv)) d
  | _ => true
  end.

(** Induction on values, with the hypothesis on every item of a list and
    every value of a dict. *)
Section PyvalInduction.

Variable P : pyval -> Prop.
Hypothesis HNone : P PNone.
Hypothesis HBool : forall b, P (PBool b).
Hypothesis HInt : forall z, P (PInt z).
Hypothesis HStr : forall s, P (PStr s).
Hypothesis HList : forall l, Forall P l -> P (PList l).
Hypothesis HDict : forall d, Forall (fun kv => P (snd kv)) d -> P (PDict d).

Fixpoint pyval_induction (v : pyval) : P v :=
  match v with
  | PNone => HNone
  | PBool b => HBool b
  | PInt z => HInt z
  | PStr s => HStr s
  | PList l =>
      HList l ((fix go (l : list pyval) : Forall P l :=
                  match l with
                  | [] => Forall_nil _
                  | x :: xs => Forall_cons x (pyval_induction x) (go xs)
                  end) l)
  | PDict d =>
      HDict d ((fix go (d : list (string * pyval)) : Forall (fun kv => P (snd kv)) d :=
                  match d with
                  | [] => Forall_nil _
                  | kv :: xs => Forall_cons kv (pyval_induction (snd kv)) (go xs)
                  end) d)
  end.
End PyvalInduction.

Definition reads_back (v : pyval) : Prop :=
  forall (fuel lvl : nat) (r : string),
    (weight v <= fuel)%nat -> valid v = true -> stop r = true ->
    scan_value fuel (encode lvl v ++ r) = Scanned v r.

(** A text that [str.strip] keeps whole at its end. *)
Definition solid_end (t : string) : Prop := rstrip_by isspace t = t /\ t <> EmptyString.

Ltac break_scan H :=
  repeat match type of H with
         | context [if ?b then _ else _] => destruct b eqn:?
         | context [match ?x with _ => _ end] => destruct x eqn:?
         end; try discriminate H.

(** The config [updateRelayChannels] writes: [l0] is the list found under
    [sourceId], empty when the key is new. *)
Definition config_after_add (cd relay : dict) (s : string) (l0 : list pyval) (d : Z) : pyval :=
  PDict (dict_set cd "relayChannels" (PDict (dict_set relay s (PList (l0 ++ [PInt d]))))).

(** The config [removeRelayEntry] writes when it removes the whole key. *)
Definition config_after_del (cd relay : dict) (s : string) : pyval :=
  PDict (dict_set cd "relayChannels" (PDict (dict_del relay s))).

(** The mapping after one destination left the list of [s]: the key goes
    with the last destination. *)
Definition relay_after_remove (relay : dict) (s : string) (l' : list pyval) : dict :=
  match l' with
  | [] => dict_del relay s
  | _ :: _ => dict_set relay s (PList l')
  end.

(** A mutation of the store, as the spec names them. *)
Inductive op : Type :=
| addMapping (sourceId : string) (destId : Z)
| removeMapping (sourceId : string) (destId : option Z).

(** The file after one mutation, whatever the mutation returned. *)
Definition apply_op (o : op) (f : fs) : fs :=
  match o with
  | addMapping s d => snd (updateRelayChannels s d f)
  | removeMapping s d => snd (removeRelayEntry s d f)
  end.

Definition apply_ops (ops : list op) (f : fs) : fs :=
  fold_left (fun f o => apply_op o f) ops f.

Definition is_id (v : pyval) : bool :=
  match v with
  | PInt _ => true
  | _ => false
  end.

(** A destination list of a well-formed config: ids, at least one. *)
Definition destinations_ok (v : pyval) : bool :=
  match v with
  | PList (x :: l) => forallb is_id (x :: l)
  | _ => false
  end.

(** A well-formed [RelayConfig]: an object whose [relayChannels] field is
    an object that maps every key to a destination list that is not
    empty. *)
Definition well_formed (config : pyval) : bool :=
  match config with
  | PDict cd =>
      match dict_get cd "relayChannels" with
      | Some (PDict relay) => forallb (fun kv => destinations_ok (snd kv)) relay
      | _ => false
      end
  | _ => false
  end.

(** The file holds exactly what [json.dump] writes for a well-formed
    config. *)
Definition stores_well_formed (f : fs) : Prop :=
  exists c, f = Some (json_dump c) /\ valid c = true /\ well_formed c = true.

Definition source_of (o : op) : string :=
  match o with
  | addMapping s _ => s
  | removeMapping s _ => s
  end.

(** The text of the default config, pretty-printed with an indent of two
    spaces: three lines. *)
Definition default_text : string :=
  "{" ++ String nl ("  " ++ String dq ("relayChannels" ++ String dq (": {}" ++ String nl "}"))).

(** [loadConfig] on a file of text [text] repairs it: the file is
    overwritten with the default config, which is returned. *)
Definition repaired_by_load (text : string) : Prop :=
  loadConfig (Some text) = (Ok defaultConfig, Some (json_dump defaultConfig)).

(** The events [on_message] emits for the destination ids [ids]: one
    [send] per id that [get_channel] resolves, in the order of the list. *)
Definition forwards (get_channel : Z -> option channel) (text : string)
    (ids : list Z) : list event :=
  flat_map (fun i => match get_channel i with
                     | Some dest => [Sent dest text]
                     | None => []
                     end) ids.

(** The channel a reply names: the first mention, else the channel whose
    id is typed. *)
Definition names_channel (get_channel : Z -> option channel) (m : message)
    (c : channel) : Prop :=
  match channel_mentions m with
  | c' :: _ => c' = c
  | [] => exists i, int_of_str (strip (content m)) = Ok i /\ get_channel i = Some c
  end.

(** A config with one relay, from channel 100 to channel 200, and the file
    that holds it. *)
Definition relay_100_200 : dict := [("100", PList [PInt 200])].

Definition config_100_200 : pyval := PDict [("relayChannels", PDict relay_100_200)].

Definition file_100_200 : fs := Some (json_dump config_100_200).

(** A bot that knows the channels 100, 200 and 300. *)
Definition known_channels (i : Z) : option channel :=
  if (i =? 100) || (i =? 200) || (i =? 300) then Some i else None.

(** A message on channel 100, and one on channel 101 that looks like a
    command. *)
Definition message_on_100 : message := mkMessage 1 false 100 "<remove" [].

Definition message_on_101 : message := mkMessage 1 false 101 "<remove" [].

Definition world_100_200 : world := mkWorld file_100_200 [] [].

(** The [remove] flow called by user 7 in channel 50, who answers [100]
    and then [All]; a message of user 8 in between is not a reply. *)
Definition remove_all_arrivals : list (option message) :=
  [Some (mkMessage 8 false 50 "hello" []);
   Some (mkMessage 7 false 50 " 100 " []);
   Some (mkMessage 7 false 50 "All" [])].

(** The config with the single relay from [s] to [d]. *)
Definition single_relay (s : string) (d : Z) : pyval :=
  PDict [("relayChannels", PDict [(s, PList [PInt d])])].

(** A file [loadConfig] answers with the default config: there is none,
    it is blank, or [json.loads] rejects it. *)
Definition yields_default (f : fs) : Prop :=
  match f with
  | None => True
  | Some text =>
      strip text = EmptyString \/ json_loads (strip text) = Raise JSONDecodeError
  end.

(** The list [200, 300, 200] under the key [100]. *)
Definition relay_with_copies : dict := [("100", PList [PInt 200; PInt 300; PInt 200])].

Definition file_with_copies : fs :=
  Some (json_dump (PDict [("relayChannels", PDict relay_with_copies)])).

(** An event that sends [text] to some channel. *)
Definition sends (text : string) (e : event) : Prop := exists dest, e = Sent dest text.

(** The world with another file. *)
Definition with_file (w : world) (f : fs) : world := mkWorld f (outbox w) (arrivals w).

(** User 7 in channel 50 answers [100] and then mentions channel 300. *)
Definition add_arrivals : list (option message) :=
  [Some (mkMessage 7 false 50 "100" []);
   Some (mkMessage 7 false 50 "<#300>" [300])].

(** The answers of [remove] on the path of one destination. *)
Definition removed_one (sourceChannel destChannel : channel) : string :=
  "Removed relay from " ++ mention sourceChannel ++ " to " ++ mention destChannel ++ ".".

Definition relay_not_found : string := "That relay was not found.".

(** User 7 in channel 50 answers [100] and then [200]. *)
Definition remove_one_arrivals : list (option message) :=
  [Some (mkMessage 7 false 50 "100" []); Some (mkMessage 7 false 50 "200" [])].


(** What [removeRelayEntry] returns on a well-formed config: is there
    something to remove? *)
Definition removable (relay : dict) (s : string) (d : option Z) : bool :=
  match dict_get relay s with
  | None => false
  | Some v =>
      match d with
      | None => true
      | Some z =>
          match v with
          | PList l => existsb (eq_int z) l
          | _ => false
          end
      end
  end.

(** * Proofs *)

(** ** Facts on strings *)

Lemma append_assoc (a b c : string) : (a ++ b) ++ c = a ++ (b ++ c).
Proof. induction a as [|x a IH]; simpl; [reflexivity | now rewrite IH]. Qed.

Lemma append_nil_r (a : string) : a ++ EmptyString = a.
Proof. induction a as [|x a IH]; simpl; [reflexivity | now rewrite IH]. Qed.

Lemma length_append (a b : string) :
  String.length (a ++ b) = (String.length a + String.length b)%nat.
Proof. induction a as [|x a IH]; simpl; [reflexivity | now rewrite IH]. Qed.

(** ** String literals *)

Lemma scanstring_escape_char (c : ascii) (r : string) :
  scanstring (escape_char c ++ r) = scan_cons c (scanstring r).
Proof. each_char c; reflexivity. Qed.

Lemma scanstring_escape (s r : string) :
  scanstring (escape s ++ String dq r) = Scanned s r.
Proof.
  induction s as [|c s IH]; simpl.
  - reflexivity.
  - rewrite append_assoc, scanstring_escape_char, IH. reflexivity.
Qed.

Lemma scanstring_encode_str (s r : string) :
  exists body, encode_str s ++ r = String dq body /\ scanstring body = Scanned s r.
Proof.
  exists (escape s ++ String dq r). split.
  - unfold encode_str. simpl. now rewrite append_assoc.
  - apply scanstring_escape.
Qed.

(** ** Numbers *)

Lemma digits_of_uint (d : Decimal.uint) :
  all_chars is_digit (NilEmpty.string_of_uint d) = true.
Proof. induction d; simpl; auto. Qed.

Lemma stop_no_digit (r : string) : stop r = true -> span_digits r = (EmptyString, r).
Proof.
  destruct r as [|c r]; simpl; [reflexivity|].
  intros H. each_char c; simpl in H; try discriminate; reflexivity.
Qed.

Lemma stop_no_float (r : string) : stop r = true -> float_follows r = false.
Proof.
  destruct r as [|c r]; simpl; [reflexivity|].
  intros H. each_char c; simpl in H; try discriminate; destruct r; reflexivity.
Qed.

Lemma span_digits_app (s r : string) :
  all_chars is_digit s = true -> stop r = true -> span_digits (s ++ r) = (s, r).
Proof.
  intros Hs Hr. induction s as [|c s IH]; simpl in *.
  - now apply stop_no_digit.
  - apply andb_prop in Hs as [Hc Hs]. rewrite Hc, (IH Hs). reflexivity.
Qed.

Lemma N_of_digits_uint (d : Decimal.uint) :
  N_of_digits (NilEmpty.string_of_uint d) = N.of_uint d.
Proof. unfold N_of_digits. now rewrite NilEmpty.usu. Qed.

Lemma to_uint_normal (p : positive) : Decimal.unorm (Pos.to_uint p) = Pos.to_uint p.
Proof.
  rewrite <- (DecimalPos.Unsigned.to_of (Pos.to_uint p)).
  rewrite DecimalPos.Unsigned.of_to. reflexivity.
Qed.

Lemma to_uint_head (p : positive) :
  exists c s, NilEmpty.string_of_uint (Pos.to_uint p) = String c s
              /\ is_digit c = true /\ Ascii.eqb c "0" = false.
Proof.
  pose proof (to_uint_normal p) as Hn.
  pose proof (DecimalPos.Unsigned.to_uint_nonnil p) as Hnil.
  pose proof (DecimalPos.Unsigned.to_uint_nonzero p) as Hz.
  destruct (Pos.to_uint p) as [|u|u|u|u|u|u|u|u|u|u] eqn:E;
    try (simpl; eexists _, _; split; [reflexivity|split; reflexivity]).
  - now elim Hnil.
  - exfalso. unfold Decimal.unorm in Hn.
    destruct (Decimal.nzhead (Decimal.D0 u)) eqn:Hh;
      try (now apply (nzhead_nonzero (Decimal.D0 u) u); rewrite Hh, Hn).
    now apply Hz.
Qed.

Lemma scan_number_pos (neg : bool) (p : positive) (r : string) :
  stop r = true ->
  scan_number ((if neg then "-" else EmptyString)
               ++ NilEmpty.string_of_uint (Pos.to_uint p) ++ r)
  = Scanned (PInt (if neg then Z.neg p else Z.pos p)) r.
Proof.
  intros Hr.
  destruct (to_uint_head p) as (c & s & E & Hd & H0).
  pose proof (digits_of_uint (Pos.to_uint p)) as Hall.
  pose proof (N_of_digits_uint (Pos.to_uint p)) as Hval.
  rewrite DecimalPos.Unsigned.of_to in Hval.
  unfold scan_number.
  assert (Hhead : (if neg then "-" else EmptyString)
                  ++ NilEmpty.string_of_uint (Pos.to_uint p) ++ r
                  = (if neg then String "-" (String c (s ++ r)) else String c (s ++ r))).
  { rewrite E. now destruct neg. }
  rewrite Hhead.
  assert (Hc : Ascii.eqb c "-" = false).
  { clear -Hd. each_char c; simpl in Hd; try discriminate; reflexivity. }
  assert (Hspan : span_digits (String c (s ++ r)) = (String c s, r)).
  { change (String c (s ++ r)) with (String c s ++ r).
    rewrite <- E. apply span_digits_app; assumption. }
  destruct neg.
  - replace (Ascii.eqb "-" "-") with true by reflexivity. cbv iota beta.
    rewrite Hspan, H0, (stop_no_float r Hr), <- E, Hval. reflexivity.
  - rewrite Hc. cbv iota beta.
    rewrite Hspan, H0, (stop_no_float r Hr), <- E, Hval. reflexivity.
Qed.

Lemma scan_number_repr (z : Z) (r : string) :
  stop r = true -> scan_number (repr_int z ++ r) = Scanned (PInt z) r.
Proof.
  intros Hr. destruct z as [|p|p].
  - unfold repr_int. simpl. unfold scan_number. simpl.
    rewrite (stop_no_digit r Hr). simpl. rewrite (stop_no_float r Hr). reflexivity.
  - unfold repr_int. cbn [Z.to_int NilZero.string_of_int].
    destruct (to_uint_head p) as (c & s & E & _).
    unfold NilZero.string_of_uint.
    destruct (Pos.to_uint p) eqn:Ep; try discriminate E;
      rewrite <- Ep; apply (scan_number_pos false p r Hr).
  - unfold repr_int. cbn [Z.to_int NilZero.string_of_int].
    destruct (to_uint_head p) as (c & s & E & _).
    unfold NilZero.string_of_uint.
    destruct (Pos.to_uint p) eqn:Ep; try discriminate E;
      rewrite <- Ep; apply (scan_number_pos true p r Hr).
Qed.

Lemma repr_int_head (z : Z) :
  exists c s, repr_int z = String c s
              /\ (Ascii.eqb c "-" || is_digit c) = true.
Proof.
  destruct z as [|p|p]; unfold repr_int; cbn [Z.to_int NilZero.string_of_int].
  - eexists _, _. split; reflexivity.
  - destruct (to_uint_head p) as (c & s & E & Hd & _).
    exists c, s. unfold NilZero.string_of_uint.
    destruct (Pos.to_uint p); try discriminate E; (split; [exact E| now rewrite Hd, orb_true_r]).
  - eexists _, _. split; reflexivity.
Qed.

Lemma repr_int_chars (z : Z) :
  all_chars (fun c => Ascii.eqb c "-" || is_digit c) (repr_int z) = true.
Proof.
  assert (H : forall d, all_chars (fun c => Ascii.eqb c "-" || is_digit c)
                          (NilEmpty.string_of_uint d) = true).
  { induction d; simpl; auto. }
  destruct z as [|p|p]; unfold repr_int; cbn [Z.to_int NilZero.string_of_int].
  - reflexivity.
  - unfold NilZero.string_of_uint. destruct (Pos.to_uint p) eqn:E; rewrite <- ?E; auto.
  - unfold NilZero.string_of_uint. simpl. destruct (Pos.to_uint p) eqn:E; rewrite <- ?E; auto.
Qed.

(** ** Containers *)

Lemma encode_list (lvl : nat) (x : pyval) (xs : list pyval) :
  encode lvl (PList (x :: xs))
  = "[" ++ newline_indent (S lvl) ++ encode (S lvl) x ++ encode_items (S lvl) xs
    ++ newline_indent lvl ++ "]".
Proof.
  cbn [encode]. do 3 f_equal.
  induction xs as [|y ys IH]; [reflexivity|].
  cbn [encode_items]. rewrite !append_assoc. do 3 f_equal. exact IH.
Qed.

Lemma encode_dict (lvl : nat) (k : string) (x : pyval) (kxs : dict) :
  encode lvl (PDict ((k, x) :: kxs))
  = "{" ++ newline_indent (S lvl) ++ encode_str k ++ ": " ++ encode (S lvl) x
    ++ encode_members (S lvl) kxs ++ newline_indent lvl ++ "}".
Proof.
  cbn [encode]. do 5 f_equal.
  induction kxs as [|[k' y] ys IH]; [reflexivity|].
  cbn [encode_members]. rewrite !append_assoc. do 5 f_equal. exact IH.
Qed.

Lemma weight_list (l : list pyval) : weight (PList l) = S (items_weight l).
Proof. reflexivity. Qed.

Lemma weight_dict (d : dict) : weight (PDict d) = S (members_weight d).
Proof. reflexivity. Qed.

Lemma weight_pos (v : pyval) : (1 <= weight v)%nat.
Proof. destruct v; simpl; lia. Qed.

Lemma value_start_not_ws (c : ascii) : value_start c = true -> is_ws c = false.
Proof. intros H. each_char c; simpl in H; try discriminate; reflexivity. Qed.

Lemma value_start_not_close (c : ascii) :
  value_start c = true -> Ascii.eqb c "]" = false /\ Ascii.eqb c "}" = false.
Proof. intros H. each_char c; simpl in H; try discriminate; split; reflexivity. Qed.

Lemma encode_head (lvl : nat) (v : pyval) :
  exists c s, encode lvl v = String c s /\ value_start c = true.
Proof.
  destruct v as [|[]|z|s|[|x xs]|[|[k x] kxs]];
    try (eexists _, _; split; [reflexivity|reflexivity]).
  destruct (repr_int_head z) as (c & s & E & H).
  exists c, s. split; [exact E|].
  clear E. each_char c; simpl in H; try discriminate; reflexivity.
Qed.

Lemma skip_ws_spaces (n : nat) (s : string) : skip_ws (spaces n ++ s) = skip_ws s.
Proof. induction n as [|n IH]; simpl; auto. Qed.

Lemma skip_ws_newline_indent (lvl : nat) (s : string) :
  skip_ws (newline_indent lvl ++ s) = skip_ws s.
Proof. unfold newline_indent. cbn [append skip_ws]. simpl is_ws. cbv iota. apply skip_ws_spaces. Qed.

Lemma skip_ws_value (lvl : nat) (v : pyval) (r : string) :
  skip_ws (encode lvl v ++ r) = encode lvl v ++ r.
Proof.
  destruct (encode_head lvl v) as (c & s & E & H). rewrite E. simpl.
  now rewrite (value_start_not_ws c H).
Qed.

Lemma scan_value_number (n : nat) (c : ascii) (s : string) :
  (Ascii.eqb c "-" || is_digit c) = true ->
  scan_value (S n) (String c s) = scan_number (String c s).
Proof. intros H. each_char c; simpl in H; try discriminate; reflexivity. Qed.

Lemma dict_set_fresh (d : dict) (k : string) (v : pyval) :
  dict_get d k = None -> dict_set d k v = (d ++ [(k, v)])%list.
Proof.
  induction d as [|[k' v'] d IH]; simpl; [reflexivity|].
  destruct (String.eqb k k'); [discriminate|]. intros H. now rewrite IH.
Qed.

Lemma dict_get_none (d : dict) (k : string) :
  dict_get d k = None <-> existsb (String.eqb k) (dict_keys d) = false.
Proof.
  induction d as [|[k' v'] d IH]; simpl; [tauto|].
  destruct (String.eqb k k'); simpl; [split; discriminate | exact IH].
Qed.

Lemma nodup_keys_app_head (a : list string) (k : string) (b : list string) :
  nodup_keys (a ++ k :: b)%list = true -> existsb (String.eqb k) a = false.
Proof.
  induction a as [|x a IH]; simpl; [reflexivity|].
  intros H. apply andb_prop in H as [Hx Ha].
  rewrite (IH Ha), orb_false_r.
  rewrite existsb_app in Hx. simpl in Hx.
  rewrite String.eqb_sym.
  destruct (String.eqb x k); [|reflexivity].
  now rewrite orb_true_r in Hx.
Qed.

Lemma stop_comma (s : string) : stop ("," ++ s) = true.
Proof. reflexivity. Qed.

Lemma stop_newline_indent (lvl : nat) (s : string) : stop (newline_indent lvl ++ s) = true.
Proof. reflexivity. Qed.

Lemma stop_items (lvl j : nat) (xs : list pyval) (r : string) :
  stop (encode_items lvl xs ++ newline_indent j ++ r) = true.
Proof. destruct xs; reflexivity. Qed.

Lemma stop_members (lvl j : nat) (d : dict) (r : string) :
  stop (encode_members lvl d ++ newline_indent j ++ r) = true.
Proof. destruct d as [|[k x] d]; reflexivity. Qed.

(** What [scan_items] does after one item. *)
Lemma scan_items_last (n : nat) (acc : list pyval) (s : string) (v : pyval)
    (j : nat) (r : string) :
  scan_value n s = Scanned v (newline_indent j ++ "]" ++ r) ->
  scan_items (S n) acc s = Scanned (PList (acc ++ [v])) r.
Proof.
  intros H. cbn [scan_items]. rewrite H, skip_ws_newline_indent. reflexivity.
Qed.

Lemma scan_items_more (n : nat) (acc : list pyval) (s : string) (v : pyval)
    (lvl : nat) (t : string) :
  scan_value n s = Scanned v ("," ++ newline_indent lvl ++ t) ->
  scan_items (S n) acc s = scan_items n (acc ++ [v]) (skip_ws t).
Proof.
  intros H. cbn [scan_items]. rewrite H.
  replace (skip_ws ("," ++ newline_indent lvl ++ t))
    with (String "," (newline_indent lvl ++ t)) by reflexivity.
  replace (Ascii.eqb "," "]") with false by reflexivity.
  replace (Ascii.eqb "," ",") with true by reflexivity.
  now rewrite skip_ws_newline_indent.
Qed.

Lemma scan_items_encode (xs : list pyval) :
  Forall reads_back xs ->
  forall (x : pyval) (fuel lvl j : nat) (acc : list pyval) (r : string),
    reads_back x ->
    (items_weight (x :: xs) <= fuel)%nat ->
    valid x = true -> forallb valid xs = true ->
    scan_items fuel acc
      (encode lvl x ++ encode_items lvl xs ++ newline_indent j ++ "]" ++ r)
    = Scanned (PList (acc ++ x :: xs)) r.
Proof.
  induction 1 as [|y ys Hy Hys IH]; intros x fuel lvl j acc r Hx Hw Vx Vxs;
    (destruct fuel as [|n]; [simpl in Hw; lia|]); cbn [items_weight] in Hw.
  - apply (scan_items_last n acc _ x j r).
    apply Hx; [lia | assumption | reflexivity].
  - simpl in Vxs. apply andb_prop in Vxs as [Vy Vys].
    cbn [encode_items]. rewrite !append_assoc.
    rewrite (scan_items_more n acc _ x lvl
               (encode lvl y ++ encode_items lvl ys ++ newline_indent j ++ "]" ++ r)).
    + rewrite skip_ws_value.
      rewrite (IH y n lvl j (acc ++ [x])%list r Hy); try assumption.
      * now rewrite <- List.app_assoc.
      * cbn [items_weight]. lia.
    + apply Hx; [lia | assumption | reflexivity].
Qed.

(** What [scan_members] does after one member. *)
Lemma scan_members_step (n : nat) (acc : dict) (k : string) (body : string)
    (x : pyval) (t : string) :
  skip_ws body = body ->
  scan_value n body = Scanned x t ->
  scan_members (S n) acc (encode_str k ++ ": " ++ body)
  = match skip_ws t with
    | String c4 r4 =>
        if Ascii.eqb c4 "}" then Scanned (PDict (dict_set acc k x)) r4
        else if Ascii.eqb c4 "," then scan_members n (dict_set acc k x) (skip_ws r4)
        else Malformed
    | EmptyString => Malformed
    end.
Proof.
  intros Hws H.
  replace (encode_str k ++ ": " ++ body)
    with (String dq (escape k ++ String dq (String ":" (String " " body)))).
  2:{ unfold encode_str. cbn [append]. now rewrite append_assoc. }
  cbn [scan_members].
  replace (Ascii.eqb dq dq) with true by reflexivity.
  rewrite scanstring_escape.
  replace (skip_ws (String ":" (String " " body))) with (String ":" (String " " body))
    by reflexivity.
  replace (Ascii.eqb ":" ":") with true by reflexivity.
  replace (skip_ws (String " " body)) with (skip_ws body) by reflexivity.
  now rewrite Hws, H.
Qed.

Lemma scan_members_encode (kxs : dict) :
  Forall (fun kv => reads_back (snd kv)) kxs ->
  forall (k : string) (x : pyval) (fuel lvl j : nat) (acc : dict) (r : string),
    reads_back x ->
    (members_weight ((k, x) :: kxs) <= fuel)%nat ->
    valid x = true -> forallb (fun kv => valid (snd kv)) kxs = true ->
    nodup_keys (dict_keys (acc ++ (k, x) :: kxs)%list) = true ->
    scan_members fuel acc
      (encode_str k ++ ": " ++ encode lvl x ++ encode_members lvl kxs
       ++ newline_indent j ++ "}" ++ r)
    = Scanned (PDict (acc ++ (k, x) :: kxs)) r.
Proof.
  induction 1 as [|[k' y] ys Hy Hys IH]; intros k x fuel lvl j acc r Hx Hw Vx Vxs Hnd;
    (destruct fuel as [|n]; [simpl in Hw; lia|]); cbn [members_weight] in Hw;
    assert (Hfresh : dict_set acc k x = (acc ++ [(k, x)])%list)
      by (apply dict_set_fresh, dict_get_none;
          unfold dict_keys in Hnd; rewrite map_app in Hnd;
          apply (nodup_keys_app_head _ _ _ Hnd)).
  - replace (encode_members lvl [] ++ newline_indent j ++ "}" ++ r)
      with (newline_indent j ++ "}" ++ r) by reflexivity.
    rewrite (scan_members_step n acc k _ x (newline_indent j ++ "}" ++ r)).
    + rewrite skip_ws_newline_indent, Hfresh. reflexivity.
    + apply skip_ws_value.
    + apply Hx; [lia | assumption | reflexivity].
  - simpl in Vxs. apply andb_prop in Vxs as [Vy Vys]. cbn [snd] in *.
    cbn [encode_members].
    rewrite (scan_members_step n acc k _ x
               ("," ++ newline_indent lvl ++ encode_str k' ++ ": " ++ encode lvl y
                ++ encode_members lvl ys ++ newline_indent j ++ "}" ++ r)).
    + replace (skip_ws ("," ++ newline_indent lvl ++ encode_str k' ++ ": " ++ encode lvl y
                ++ encode_members lvl ys ++ newline_indent j ++ "}" ++ r))
        with (String "," (newline_indent lvl ++ encode_str k' ++ ": " ++ encode lvl y
                ++ encode_members lvl ys ++ newline_indent j ++ "}" ++ r)) by reflexivity.
      replace (Ascii.eqb "," "}") with false by reflexivity.
      replace (Ascii.eqb "," ",") with true by reflexivity.
      cbv iota. rewrite skip_ws_newline_indent.
      replace (skip_ws (encode_str k' ++ ": " ++ encode lvl y
                ++ encode_members lvl ys ++ newline_indent j ++ "}" ++ r))
        with (encode_str k' ++ ": " ++ encode lvl y
                ++ encode_members lvl ys ++ newline_indent j ++ "}" ++ r) by reflexivity.
      rewrite Hfresh, (IH k' y n lvl j (acc ++ [(k, x)])%list r Hy);
        try assumption; try (now rewrite <- List.app_assoc).
      cbn [members_weight]. lia.
    + rewrite !append_assoc. apply skip_ws_value.
    + rewrite !append_assoc. apply Hx; [lia | assumption | reflexivity].
Qed.

Lemma scan_value_open_list (n lvl : nat) (body : string) :
  (exists c s, body = String c s /\ value_start c = true) ->
  scan_value (S n) ("[" ++ newline_indent lvl ++ body) = scan_items n [] body.
Proof.
  intros (c & s & -> & H).
  replace ("[" ++ newline_indent lvl ++ String c s)
    with (String "[" (newline_indent lvl ++ String c s)) by reflexivity.
  cbn [scan_value].
  replace (Ascii.eqb "[" dq) with false by reflexivity.
  replace (Ascii.eqb "[" "{") with false by reflexivity.
  replace (Ascii.eqb "[" "[") with true by reflexivity.
  cbv iota. rewrite skip_ws_newline_indent.
  cbn [skip_ws]. rewrite (value_start_not_ws c H).
  destruct (value_start_not_close c H) as [-> _]. reflexivity.
Qed.

Lemma scan_value_open_dict (n lvl : nat) (body : string) :
  (exists s, body = String dq s) ->
  scan_value (S n) ("{" ++ newline_indent lvl ++ body) = scan_members n [] body.
Proof.
  intros (s & ->).
  replace ("{" ++ newline_indent lvl ++ String dq s)
    with (String "{" (newline_indent lvl ++ String dq s)) by reflexivity.
  cbn [scan_value].
  replace (Ascii.eqb "{" dq) with false by reflexivity.
  replace (Ascii.eqb "{" "{") with true by reflexivity.
  cbv iota. rewrite skip_ws_newline_indent. reflexivity.
Qed.

Lemma encode_app_head (lvl : nat) (v : pyval) (r : string) :
  exists c s, encode lvl v ++ r = String c s /\ value_start c = true.
Proof.
  destruct (encode_head lvl v) as (c & s & E & H).
  exists c, (s ++ r). rewrite E. now split.
Qed.

(** [scan_value] reads back what [encode] writes. *)
Lemma encode_reads_back (v : pyval) : reads_back v.
Proof.
  induction v as [|b|z|s|l IH|d IH] using pyval_induction;
    intros fuel lvl r Hw Hv Hr;
    (destruct fuel as [|n];
     [match type of Hw with (weight ?v <= _)%nat => pose proof (weight_pos v) end; lia|]).
  - reflexivity.
  - destruct b; reflexivity.
  - cbn [encode].
    destruct (repr_int_head z) as (c & s & E & H).
    pose proof (scan_number_repr z r Hr) as Hn.
    rewrite E in *. cbn [append] in *.
    now rewrite scan_value_number.
  - cbn [encode].
    destruct (scanstring_encode_str s r) as (body & -> & Hb).
    cbn [scan_value]. replace (Ascii.eqb dq dq) with true by reflexivity.
    now rewrite Hb.
  - destruct l as [|x xs]; [reflexivity|].
    rewrite encode_list, !append_assoc.
    rewrite scan_value_open_list by apply encode_app_head.
    rewrite weight_list in Hw. inversion IH as [|? ? Hx Hxs]; subst.
    cbn [valid forallb] in Hv. apply andb_prop in Hv as [Vx Vxs].
    apply (scan_items_encode xs Hxs x n (S lvl) lvl [] r Hx); [lia | assumption..].
  - destruct d as [|[k x] kxs]; [reflexivity|].
    rewrite encode_dict, !append_assoc.
    rewrite scan_value_open_dict.
    2:{ eexists. unfold encode_str. cbn [append]. reflexivity. }
    rewrite weight_dict in Hw. inversion IH as [|? ? Hx Hxs]; subst. cbn [snd] in Hx.
    cbn [valid forallb dict_keys map fst snd] in Hv.
    apply andb_prop in Hv as [Hnd Hv]. apply andb_prop in Hv as [Vx Vxs].
    apply (scan_members_encode kxs Hxs k x n (S lvl) lvl [] r Hx); try assumption; lia.
Qed.

(** ** [json.loads] after [json.dump] *)

Lemma newline_indent_length (lvl : nat) : (1 <= String.length (newline_indent lvl))%nat.
Proof. unfold newline_indent. simpl. lia. Qed.

Lemma encode_length (v : pyval) :
  forall lvl, (weight v <= String.length (encode lvl v))%nat.
Proof.
  induction v as [|b|z|s|l IH|d IH] using pyval_induction; intros lvl.
  - simpl. lia.
  - destruct b; simpl; lia.
  - destruct (encode_head lvl (PInt z)) as (c & s' & E & _). rewrite E. simpl. lia.
  - destruct (encode_head lvl (PStr s)) as (c & s' & E & _). rewrite E. simpl. lia.
  - destruct l as [|x xs]; [simpl; lia|].
    rewrite encode_list, weight_list. rewrite !length_append.
    pose proof (newline_indent_length (S lvl)). pose proof (newline_indent_length lvl).
    inversion IH as [|? ? Hx Hxs]; subst. specialize (Hx (S lvl)).
    assert (Hi : (items_weight xs <= String.length (encode_items (S lvl) xs))%nat).
    { clear -Hxs. induction Hxs as [|y ys Hy _ IHys]; [simpl; lia|].
      cbn [encode_items items_weight]. rewrite !length_append.
      pose proof (newline_indent_length (S lvl)). specialize (Hy (S lvl)). simpl String.length at 1. lia. }
    cbn [items_weight]. simpl String.length at 1. lia.
  - destruct d as [|[k x] kxs]; [simpl; lia|].
    rewrite encode_dict, weight_dict. rewrite !length_append.
    pose proof (newline_indent_length (S lvl)). pose proof (newline_indent_length lvl).
    inversion IH as [|? ? Hx Hxs]; subst. specialize (Hx (S lvl)). cbn [snd] in Hx.
    assert (Hi : (members_weight kxs <= String.length (encode_members (S lvl) kxs))%nat).
    { clear -Hxs. induction Hxs as [|[k' y] ys Hy _ IHys]; [simpl; lia|].
      cbn [encode_members members_weight]. rewrite !length_append.
      pose proof (newline_indent_length (S lvl)). specialize (Hy (S lvl)). cbn [snd] in Hy.
      simpl String.length at 1. lia. }
    cbn [members_weight]. simpl String.length at 1. lia.
Qed.

Lemma solid_end_app (s t : string) : solid_end t -> solid_end (s ++ t).
Proof.
  intros [Ht Hne]. induction s as [|c s [IH1 IH2]]; [now split|].
  split; [|discriminate].
  cbn [append rstrip_by]. rewrite IH1. destruct (s ++ t); [now elim IH2 | reflexivity].
Qed.

Lemma solid_end_chars (s : string) :
  all_chars (fun c => negb (isspace c)) s = true -> s <> EmptyString -> solid_end s.
Proof.
  induction s as [|c s IH]; intros H Hne; [now elim Hne|].
  simpl in H. apply andb_prop in H as [Hc Hs].
  destruct s as [|c' s'].
  - split; [|discriminate]. simpl. now destruct (isspace c).
  - change (String c (String c' s')) with (String c EmptyString ++ String c' s').
    apply solid_end_app, IH; [assumption | discriminate].
Qed.

Lemma all_chars_impl (p q : ascii -> bool) (s : string) :
  (forall c, p c = true -> q c = true) -> all_chars p s = true -> all_chars q s = true.
Proof.
  intros Hpq. induction s as [|c s IH]; simpl; [auto|].
  intros H. apply andb_prop in H as [Hc Hs]. now rewrite (Hpq c Hc), IH.
Qed.

Lemma encode_solid_end (lvl : nat) (v : pyval) : solid_end (encode lvl v).
Proof.
  destruct v as [|[]|z|s|[|x xs]|[|[k x] kxs]];
    try (split; [reflexivity | discriminate]).
  - cbn [encode]. apply solid_end_chars.
    + apply (all_chars_impl (fun c => Ascii.eqb c "-" || is_digit c)); [|apply repr_int_chars].
      intros c. each_char c; intros H; (discriminate H || reflexivity).
    + destruct (repr_int_head z) as (c & s & E & _). rewrite E. discriminate.
  - cbn [encode]. unfold encode_str.
    change (String dq (escape s ++ String dq EmptyString))
      with (String dq EmptyString ++ (escape s ++ String dq EmptyString)).
    apply solid_end_app, solid_end_app. split; [reflexivity | discriminate].
  - rewrite encode_list. repeat apply solid_end_app. split; [reflexivity | discriminate].
  - rewrite encode_dict. repeat apply solid_end_app. split; [reflexivity | discriminate].
Qed.

Lemma value_start_not_space (c : ascii) : value_start c = true -> isspace c = false.
Proof. intros H. each_char c; simpl in H; try discriminate; reflexivity. Qed.

Lemma strip_encode (lvl : nat) (v : pyval) : strip (encode lvl v) = encode lvl v.
Proof.
  unfold strip.
  destruct (encode_head lvl v) as (c & s & E & H).
  assert (Hl : lstrip_by isspace (encode lvl v) = encode lvl v).
  { rewrite E. simpl. now rewrite (value_start_not_space c H). }
  rewrite Hl. apply encode_solid_end.
Qed.

Lemma json_dump_not_blank (v : pyval) : strip (json_dump v) <> EmptyString.
Proof. unfold json_dump. rewrite strip_encode. apply encode_solid_end. Qed.

(** [json.loads] gives back the value [json.dump] wrote. *)
Lemma json_loads_dump (v : pyval) :
  valid v = true -> json_loads (json_dump v) = Ok v.
Proof.
  intros Hv. unfold json_loads, json_dump.
  pose proof (skip_ws_value 0 v EmptyString) as Hs. rewrite append_nil_r in Hs.
  rewrite Hs.
  pose proof (encode_reads_back v (S (2 * String.length (encode 0 v))) 0%nat EmptyString) as H.
  rewrite append_nil_r in H. rewrite H; try reflexivity; try assumption.
  pose proof (encode_length v 0). lia.
Qed.

(** ** What [json.loads] returns is a value Python can hold *)

Lemma existsb_dict_set (d : dict) (k k' : string) (v : pyval) :
  existsb (String.eqb k') (dict_keys (dict_set d k v))
  = existsb (String.eqb k') (dict_keys d) || String.eqb k' k.
Proof.
  induction d as [|[k0 v0] d IH]; simpl.
  - now rewrite orb_false_r.
  - destruct (String.eqb k k0) eqn:E; simpl.
    + apply String.eqb_eq in E. subst k0.
      destruct (String.eqb k' k); simpl; [reflexivity | now rewrite orb_false_r].
    + rewrite IH. now rewrite orb_assoc.
Qed.

Lemma nodup_keys_dict_set (d : dict) (k : string) (v : pyval) :
  nodup_keys (dict_keys d) = true -> nodup_keys (dict_keys (dict_set d k v)) = true.
Proof.
  induction d as [|[k0 v0] d IH]; simpl; [reflexivity|].
  intros H. apply andb_prop in H as [H0 Hd].
  destruct (String.eqb k k0) eqn:E; simpl.
  - now rewrite H0, Hd.
  - rewrite (IH Hd), andb_true_r.
    change (map fst (dict_set d k v)) with (dict_keys (dict_set d k v)).
    rewrite existsb_dict_set.
    change (map fst d) with (dict_keys d) in H0.
    apply negb_true_iff in H0. rewrite H0. simpl.
    rewrite String.eqb_sym, E. reflexivity.
Qed.

Lemma forallb_dict_set (p : pyval -> bool) (d : dict) (k : string) (v : pyval) :
  forallb (fun kv => p (snd kv)) d = true -> p v = true ->
  forallb (fun kv => p (snd kv)) (dict_set d k v) = true.
Proof.
  intros Hd Hv. induction d as [|[k0 v0] d IH]; simpl in *.
  - now rewrite Hv.
  - apply andb_prop in Hd as [H0 Hd].
    destruct (String.eqb k k0); simpl; [now rewrite Hv, Hd | now rewrite H0, IH].
Qed.

Lemma valid_dict_set (d : dict) (k : string) (v : pyval) :
  valid (PDict d) = true -> valid v = true -> valid (PDict (dict_set d k v)) = true.
Proof.
  cbn [valid]. intros H Hv. apply andb_prop in H as [Hn Hd].
  rewrite (nodup_keys_dict_set d k v Hn). simpl.
  now apply forallb_dict_set.
Qed.

Lemma scan_number_valid (s : string) (v : pyval) (r : string) :
  scan_number s = Scanned v r -> valid v = true.
Proof.
  unfold scan_number. intros H.
  repeat match type of H with
         | context [let (_, _) := ?x in _] => destruct x eqn:?
         | context [if ?b then _ else _] => destruct b eqn:?
         | context [match ?x with _ => _ end] => destruct x eqn:?
         end; try discriminate; injection H as <- _; reflexivity.
Qed.

Lemma scan_valid (fuel : nat) :
  (forall s v r, scan_value fuel s = Scanned v r -> valid v = true)
  /\ (forall acc s v r, scan_members fuel acc s = Scanned v r ->
        valid (PDict acc) = true -> valid v = true)
  /\ (forall acc s v r, scan_items fuel acc s = Scanned v r ->
        valid (PList acc) = true -> valid v = true).
Proof.
  induction fuel as [|n (IHv & IHm & IHi)]; [repeat split; intros; discriminate|].
  repeat split.
  - intros s v r H. cbn [scan_value] in H.
    destruct s as [|c s']; [discriminate|].
    destruct (Ascii.eqb c dq).
    { destruct (scanstring s'); try discriminate. injection H as <- _. reflexivity. }
    destruct (Ascii.eqb c "{").
    { destruct (skip_ws s') as [|c1 r1]; [discriminate|].
      destruct (Ascii.eqb c1 "}"); [injection H as <- _; reflexivity|].
      now apply IHm in H. }
    destruct (Ascii.eqb c "[").
    { destruct (skip_ws s') as [|c1 r1]; [discriminate|].
      destruct (Ascii.eqb c1 "]"); [injection H as <- _; reflexivity|].
      now apply IHi in H. }
    destruct (after "null" (String c s')); [injection H as <- _; reflexivity|].
    destruct (after "true" (String c s')); [injection H as <- _; reflexivity|].
    destruct (after "false" (String c s')); [injection H as <- _; reflexivity|].
    destruct (_ || _); [discriminate|].
    now apply scan_number_valid in H.
  - intros acc s v r H Hacc. cbn [scan_members] in H.
    destruct s as [|c s']; [discriminate|].
    destruct (Ascii.eqb c dq); [|discriminate].
    destruct (scanstring s') as [k r1| |]; try discriminate.
    destruct (skip_ws r1) as [|c2 r2]; [discriminate|].
    destruct (Ascii.eqb c2 ":"); [|discriminate].
    destruct (scan_value n (skip_ws r2)) as [x r3| |] eqn:Hx; try discriminate.
    apply IHv in Hx.
    destruct (skip_ws r3) as [|c4 r4]; [discriminate|].
    destruct (Ascii.eqb c4 "}").
    { injection H as <- _. now apply valid_dict_set. }
    destruct (Ascii.eqb c4 ","); [|discriminate].
    apply IHm in H; [assumption|]. now apply valid_dict_set.
  - intros acc s v r H Hacc. cbn [scan_items] in H.
    destruct (scan_value n s) as [x r1| |] eqn:Hx; try discriminate.
    apply IHv in Hx.
    assert (Hacc' : valid (PList (acc ++ [x])) = true).
    { cbn [valid] in *. rewrite forallb_app, Hacc. simpl. now rewrite Hx. }
    destruct (skip_ws r1) as [|c2 r2]; [discriminate|].
    destruct (Ascii.eqb c2 "]"); [injection H as <- _; assumption|].
    destruct (Ascii.eqb c2 ","); [|discriminate].
    now apply IHi in H.
Qed.

Lemma json_loads_valid (s : string) (v : pyval) : json_loads s = Ok v -> valid v = true.
Proof.
  unfold json_loads. intros H.
  destruct (scan_value _ _) as [x r| |] eqn:Hx; try discriminate.
  destruct (skip_ws r); try discriminate. injection H as <-.
  now apply (proj1 (scan_valid _)) in Hx.
Qed.

(** ** The fuel of [json_loads] is enough *)

Lemma skip_ws_length (s : string) : (String.length (skip_ws s) <= String.length s)%nat.
Proof. induction s as [|c s IH]; simpl; [lia|]. destruct (is_ws c); simpl; lia. Qed.

Lemma scan_cons_length (c : ascii) (x : scan string) (k r : string) :
  scan_cons c x = Scanned k r -> exists k', x = Scanned k' r.
Proof. destruct x; simpl; try discriminate. intros [= _ <-]. now eexists. Qed.

Lemma scanstring_length (n : nat) :
  forall s k r, (String.length s <= n)%nat ->
    scanstring s = Scanned k r -> (String.length r < String.length s)%nat.
Proof.
  induction n as [|n IH]; intros s k r Hn H.
  - destruct s; [discriminate | simpl in Hn; lia].
  - destruct s as [|c s]; [discriminate|]. cbn [scanstring] in H.
    destruct (Ascii.eqb c dq); [injection H as _ <-; simpl; lia|].
    destruct (Ascii.eqb c "\").
    + destruct s as [|e r1]; [discriminate|].
      destruct (Ascii.eqb e "u").
      * destruct r1 as [|h1 [|h2 [|h3 [|h4 r2]]]]; try discriminate.
        destruct (hex4 h1 h2 h3 h4); [|discriminate].
        destruct (_ <? _)%N; [|discriminate].
        apply scan_cons_length in H as (k' & H).
        apply IH in H; simpl in *; lia.
      * destruct (unescape e); [|discriminate].
        apply scan_cons_length in H as (k' & H).
        apply IH in H; simpl in *; lia.
    + destruct (_ <? _)%N; [discriminate|].
      apply scan_cons_length in H as (k' & H).
      apply IH in H; simpl in *; lia.
Qed.

Lemma span_digits_length (s ds r : string) :
  span_digits s = (ds, r) ->
  String.length s = (String.length ds + String.length r)%nat.
Proof.
  revert ds r. induction s as [|c s IH]; simpl; intros ds r.
  - now intros [= <- <-].
  - destruct (is_digit c).
    + destruct (span_digits s) as [ds' r'] eqn:E. intros [= <- <-].
      simpl. now rewrite (IH ds' r' eq_refl).
    + now intros [= <- <-].
Qed.

Lemma scan_number_length (s : string) (v : pyval) (r : string) :
  scan_number s = Scanned v r -> (String.length r < String.length s)%nat.
Proof.
  unfold scan_number.
  set (p := match s with
            | EmptyString => (false, s)
            | String c r0 => if Ascii.eqb c "-" then (true, r0) else (false, s)
            end).
  assert (Hp : (String.length (snd p) <= String.length s)%nat).
  { subst p. destruct s as [|c r0]; [simpl; lia|].
    destruct (Ascii.eqb c "-"); simpl; lia. }
  destruct p as [neg s1]. cbn [snd] in Hp.
  destruct (span_digits s1) as [ds rest] eqn:E.
  apply span_digits_length in E.
  destruct ds as [|c ds'].
  - destruct (_ && _); discriminate.
  - simpl in E. destruct (Ascii.eqb c "0").
    + destruct (float_follows _); [discriminate|]. intros [= _ <-].
      rewrite length_append. lia.
    + destruct (float_follows _); [discriminate|]. intros [= _ <-]. lia.
Qed.

Lemma after_length (lit s r : string) :
  after lit s = Some r -> String.length s = (String.length lit + String.length r)%nat.
Proof.
  revert s. induction lit as [|a lit IH]; intros s; simpl.
  - now intros [= <-].
  - destruct s as [|b s]; [discriminate|].
    destruct (Ascii.eqb a b); [|discriminate]. intros H. simpl. now rewrite (IH s H).
Qed.

(** Every scanner consumes text. *)
Lemma scan_length (fuel : nat) :
  (forall s v r, scan_value fuel s = Scanned v r ->
     (String.length r < String.length s)%nat)
  /\ (forall acc s v r, scan_members fuel acc s = Scanned v r ->
        (String.length r < String.length s)%nat)
  /\ (forall acc s v r, scan_items fuel acc s = Scanned v r ->
        (String.length r < String.length s)%nat).
Proof.
  induction fuel as [|n (IHv & IHm & IHi)]; [repeat split; intros; discriminate|].
  repeat split.
  - intros s v r H. cbn [scan_value] in H.
    destruct s as [|c s']; [discriminate|].
    destruct (Ascii.eqb c dq).
    { destruct (scanstring s') as [k r1| |] eqn:E; try discriminate.
      injection H as _ <-. apply (scanstring_length _ _ _ _ (le_n _)) in E. simpl. lia. }
    destruct (Ascii.eqb c "{").
    { pose proof (skip_ws_length s') as Hs.
      destruct (skip_ws s') as [|c1 r1]; [discriminate|].
      destruct (Ascii.eqb c1 "}"); [injection H as _ <-; simpl in *; lia|].
      apply IHm in H. simpl in *. lia. }
    destruct (Ascii.eqb c "[").
    { pose proof (skip_ws_length s') as Hs.
      destruct (skip_ws s') as [|c1 r1]; [discriminate|].
      destruct (Ascii.eqb c1 "]"); [injection H as _ <-; simpl in *; lia|].
      apply IHi in H. simpl in *. lia. }
    destruct (after "null" (String c s')) eqn:E1.
    { injection H as _ <-. apply after_length in E1. rewrite E1. simpl. lia. }
    destruct (after "true" (String c s')) eqn:E2.
    { injection H as _ <-. apply after_length in E2. rewrite E2. simpl. lia. }
    destruct (after "false" (String c s')) eqn:E3.
    { injection H as _ <-. apply after_length in E3. rewrite E3. simpl. lia. }
    destruct (_ || _); [discriminate|].
    now apply scan_number_length in H.
  - intros acc s v r H. cbn [scan_members] in H.
    destruct s as [|c s']; [discriminate|].
    destruct (Ascii.eqb c dq); [|discriminate].
    destruct (scanstring s') as [k r1| |] eqn:E; try discriminate.
    apply (scanstring_length _ _ _ _ (le_n _)) in E.
    pose proof (skip_ws_length r1) as H1.
    destruct (skip_ws r1) as [|c2 r2]; [discriminate|].
    destruct (Ascii.eqb c2 ":"); [|discriminate].
    pose proof (skip_ws_length r2) as H2.
    destruct (scan_value n (skip_ws r2)) as [x r3| |] eqn:Hx; try discriminate.
    apply IHv in Hx.
    pose proof (skip_ws_length r3) as H3.
    destruct (skip_ws r3) as [|c4 r4]; [discriminate|].
    destruct (Ascii.eqb c4 "}"); [injection H as _ <-; simpl in *; lia|].
    destruct (Ascii.eqb c4 ","); [|discriminate].
    apply IHm in H. pose proof (skip_ws_length r4). simpl in *. lia.
  - intros acc s v r H. cbn [scan_items] in H.
    destruct (scan_value n s) as [x r1| |] eqn:Hx; try discriminate.
    apply IHv in Hx.
    pose proof (skip_ws_length r1) as H1.
    destruct (skip_ws r1) as [|c2 r2]; [discriminate|].
    destruct (Ascii.eqb c2 "]"); [injection H as _ <-; simpl in *; lia|].
    destruct (Ascii.eqb c2 ","); [|discriminate].
    apply IHi in H. pose proof (skip_ws_length r2). simpl in *. lia.
Qed.

(** Beyond twice the length of the text, more fuel changes nothing. *)
Lemma scan_fuel_enough (n : nat) :
  (forall s m, (2 * String.length s < n)%nat -> (n <= m)%nat ->
     scan_value m s = scan_value n s)
  /\ (forall acc s m, (2 * String.length s < n)%nat -> (n <= m)%nat ->
        scan_members m acc s = scan_members n acc s)
  /\ (forall acc s m, (2 * String.length s + 1 < n)%nat -> (n <= m)%nat ->
        scan_items m acc s = scan_items n acc s).
Proof.
  induction n as [|n (IHv & IHm & IHi)]; [repeat split; intros; lia|].
  repeat split.
  - intros s m Hs Hm. destruct m as [|m]; [lia|]. cbn [scan_value].
    destruct s as [|c s']; [reflexivity|]. simpl in Hs.
    destruct (Ascii.eqb c dq); [reflexivity|].
    destruct (Ascii.eqb c "{").
    { pose proof (skip_ws_length s') as Hl.
      destruct (skip_ws s') as [|c1 r1]; [reflexivity|].
      destruct (Ascii.eqb c1 "}"); [reflexivity|].
      apply IHm; simpl in *; lia. }
    destruct (Ascii.eqb c "[").
    { pose proof (skip_ws_length s') as Hl.
      destruct (skip_ws s') as [|c1 r1]; [reflexivity|].
      destruct (Ascii.eqb c1 "]"); [reflexivity|].
      apply IHi; simpl in *; lia. }
    reflexivity.
  - intros acc s m Hs Hm. destruct m as [|m]; [lia|]. cbn [scan_members].
    destruct s as [|c s']; [reflexivity|]. simpl in Hs.
    destruct (Ascii.eqb c dq); [|reflexivity].
    destruct (scanstring s') as [k r1| |] eqn:E; try reflexivity.
    apply (scanstring_length _ _ _ _ (le_n _)) in E.
    pose proof (skip_ws_length r1) as H1.
    destruct (skip_ws r1) as [|c2 r2]; [reflexivity|].
    destruct (Ascii.eqb c2 ":"); [|reflexivity].
    pose proof (skip_ws_length r2) as H2.
    rewrite (IHv (skip_ws r2) m) by (simpl in *; lia).
    destruct (scan_value n (skip_ws r2)) as [x r3| |] eqn:Hx; try reflexivity.
    apply (proj1 (scan_length n)) in Hx.
    pose proof (skip_ws_length r3) as H3.
    destruct (skip_ws r3) as [|c4 r4]; [reflexivity|].
    destruct (Ascii.eqb c4 "}"); [reflexivity|].
    destruct (Ascii.eqb c4 ","); [|reflexivity].
    pose proof (skip_ws_length r4).
    apply IHm; simpl in *; lia.
  - intros acc s m Hs Hm. destruct m as [|m]; [lia|]. cbn [scan_items].
    rewrite (IHv s m) by lia.
    destruct (scan_value n s) as [x r1| |] eqn:Hx; try reflexivity.
    apply (proj1 (scan_length n)) in Hx.
    pose proof (skip_ws_length r1) as H1.
    destruct (skip_ws r1) as [|c2 r2]; [reflexivity|].
    destruct (Ascii.eqb c2 "]"); [reflexivity|].
    destruct (Ascii.eqb c2 ","); [|reflexivity].
    pose proof (skip_ws_length r2).
    apply IHi; simpl in *; lia.
Qed.

(** The outcome of [json_loads] does not depend on its fuel: any larger
    amount scans the text to the same result. *)
Lemma json_loads_fuel (s : string) (m : nat) :
  (S (2 * String.length s) <= m)%nat ->
  scan_value m (skip_ws s) = scan_value (S (2 * String.length s)) (skip_ws s).
Proof.
  intros Hm. apply (proj1 (scan_fuel_enough _)); [|assumption].
  pose proof (skip_ws_length s). lia.
Qed.

(** ** Facts on dicts *)

Lemma dict_get_set_same (d : dict) (k : string) (v : pyval) :
  dict_get (dict_set d k v) k = Some v.
Proof.
  induction d as [|[k0 v0] d IH]; simpl.
  - now rewrite String.eqb_refl.
  - destruct (String.eqb k k0) eqn:E; simpl; now rewrite E.
Qed.

Lemma dict_get_set_other (d : dict) (k k' : string) (v : pyval) :
  k' <> k -> dict_get (dict_set d k v) k' = dict_get d k'.
Proof.
  intros Hne. apply String.eqb_neq in Hne.
  induction d as [|[k0 v0] d IH]; simpl.
  - now rewrite Hne.
  - destruct (String.eqb k k0) eqn:E; simpl.
    + apply String.eqb_eq in E. subst k0. now rewrite Hne.
    + now rewrite IH.
Qed.

Lemma dict_set_set (d : dict) (k : string) (a b : pyval) :
  dict_set (dict_set d k a) k b = dict_set d k b.
Proof.
  induction d as [|[k0 v0] d IH]; simpl.
  - now rewrite String.eqb_refl.
  - destruct (String.eqb k k0) eqn:E; simpl; rewrite E; [reflexivity | now rewrite IH].
Qed.

Lemma dict_get_del_other (d : dict) (k k' : string) :
  k' <> k -> dict_get (dict_del d k) k' = dict_get d k'.
Proof.
  intros Hne. apply String.eqb_neq in Hne.
  induction d as [|[k0 v0] d IH]; simpl; [reflexivity|].
  destruct (String.eqb k k0) eqn:E; simpl.
  - apply String.eqb_eq in E. subst k0. now rewrite Hne.
  - now rewrite IH.
Qed.

Lemma dict_get_del_same (d : dict) (k : string) :
  nodup_keys (dict_keys d) = true -> dict_get (dict_del d k) k = None.
Proof.
  induction d as [|[k0 v0] d IH]; simpl; [reflexivity|].
  intros H. apply andb_prop in H as [H0 Hd].
  destruct (String.eqb k k0) eqn:E; simpl.
  - apply String.eqb_eq in E. subst k0.
    apply dict_get_none. now apply negb_true_iff in H0.
  - rewrite E. now apply IH.
Qed.

Lemma existsb_dict_del (d : dict) (k k' : string) :
  existsb (String.eqb k') (dict_keys d) = false ->
  existsb (String.eqb k') (dict_keys (dict_del d k)) = false.
Proof.
  induction d as [|[k0 v0] d IH]; simpl; [reflexivity|].
  intros H. apply orb_false_elim in H as [H0 Hd].
  destruct (String.eqb k k0); simpl; [assumption|]. now rewrite H0, IH.
Qed.

Lemma valid_dict_del (d : dict) (k : string) :
  valid (PDict d) = true -> valid (PDict (dict_del d k)) = true.
Proof.
  cbn [valid]. induction d as [|[k0 v0] d IH]; simpl; [reflexivity|].
  intros H. apply andb_prop in H as [H1 H2].
  apply andb_prop in H1 as [H0 Hd]. apply andb_prop in H2 as [Hv Hvs].
  destruct (String.eqb k k0); simpl.
  - now rewrite Hd, Hvs.
  - assert (IH' := IH ltac:(now rewrite Hd, Hvs)).
    apply andb_prop in IH' as [IH1 IH2].
    change (map fst (dict_del d k)) with (dict_keys (dict_del d k)).
    apply negb_true_iff in H0.
    rewrite (existsb_dict_del d k k0 H0), IH1, Hv, IH2. reflexivity.
Qed.

Lemma valid_dict_get (d : dict) (k : string) (v : pyval) :
  valid (PDict d) = true -> dict_get d k = Some v -> valid v = true.
Proof.
  cbn [valid]. intros H. apply andb_prop in H as [_ H].
  induction d as [|[k0 v0] d IH]; simpl in *; [discriminate|].
  apply andb_prop in H as [H0 Hd].
  destruct (String.eqb k k0); [now intros [= <-] | now apply IH].
Qed.

Lemma valid_py_get (c : pyval) (k : string) (dflt v : pyval) :
  valid c = true -> valid dflt = true -> py_get c k dflt = Ok v -> valid v = true.
Proof.
  intros Hc Hd. destruct c; simpl; try discriminate.
  destruct (dict_get d k) eqn:E; intros [= <-]; [now apply (valid_dict_get d k)| assumption].
Qed.

Lemma valid_append (l : list pyval) (z : Z) :
  valid (PList l) = true -> valid (PList (l ++ [PInt z])) = true.
Proof. cbn [valid]. intros H. now rewrite forallb_app, H. Qed.

Lemma valid_remove_first (z : Z) (l l' : list pyval) :
  valid (PList l) = true -> remove_first z l = Some l' -> valid (PList l') = true.
Proof.
  cbn [valid]. revert l'. induction l as [|x l IH]; simpl; [discriminate|].
  intros l' H. apply andb_prop in H as [Hx Hl].
  destruct (eq_int z x); [now intros [= <-]|].
  destruct (remove_first z l) as [l0|]; simpl; [|discriminate].
  intros [= <-]. simpl. now rewrite Hx, (IH l0).
Qed.

(** ** [loadConfig] *)

Lemma json_loads_raises (s : string) (e : exn) :
  json_loads s = Raise e -> e = JSONDecodeError.
Proof.
  unfold json_loads. destruct (scan_value _ _) as [v r| |]; try discriminate.
  - destruct (skip_ws r); [discriminate | now intros [= <-]].
  - now intros [= <-].
Qed.

(** A file written by [json.dump] loads to the value written, and is left
    as it is. *)
Lemma loadConfig_stored (c : pyval) :
  valid c = true -> loadConfig (Some (json_dump c)) = (Ok c, Some (json_dump c)).
Proof.
  intros Hv.
  assert (Hs : strip (json_dump c) = json_dump c) by apply strip_encode.
  unfold loadConfig, try_except, bind, read_config_json. rewrite Hs.
  destruct (String.eqb (json_dump c) EmptyString) eqn:E.
  - apply String.eqb_eq in E. exfalso.
    apply (json_dump_not_blank c). now rewrite Hs.
  - unfold lift. now rewrite json_loads_dump.
Qed.

(** What [loadConfig] does, case by case. *)
Lemma loadConfig_cases (f : fs) :
  match f with
  | None => loadConfig f = (Ok defaultConfig, Some (json_dump defaultConfig))
  | Some text =>
      if String.eqb (strip text) EmptyString then loadConfig f = (Ok defaultConfig, f)
      else match json_loads (strip text) with
           | Ok v => loadConfig f = (Ok v, f)
           | Raise _ => loadConfig f = (Ok defaultConfig, Some (json_dump defaultConfig))
           | Unmodelled => loadConfig f = (Unmodelled, f)
           end
  end.
Proof.
  destruct f as [text|]; [|reflexivity].
  unfold loadConfig, try_except, bind, read_config_json.
  destruct (String.eqb (strip text) EmptyString); [reflexivity|].
  unfold lift. destruct (json_loads (strip text)) eqn:E; try reflexivity.
  apply json_loads_raises in E. subst e. reflexivity.
Qed.

Lemma valid_defaultConfig : valid defaultConfig = true.
Proof. reflexivity. Qed.

(** A config that [loadConfig] returns is a value Python can hold, and
    loading again returns it again without touching the file. *)
Lemma loadConfig_settles (f f1 : fs) (c : pyval) :
  loadConfig f = (Ok c, f1) -> valid c = true /\ loadConfig f1 = (Ok c, f1).
Proof.
  intros H. pose proof (loadConfig_cases f) as Hc.
  destruct f as [text|].
  - destruct (String.eqb (strip text) EmptyString).
    + rewrite Hc in H. injection H as <- <-. now split.
    + destruct (json_loads (strip text)) eqn:E; rewrite Hc in H; try discriminate.
      * injection H as <- <-. split; [now apply json_loads_valid in E | assumption].
      * injection H as <- <-. split; [reflexivity | now apply loadConfig_stored].
  - rewrite Hc in H. injection H as <- <-. split; [reflexivity | now apply loadConfig_stored].
Qed.

Lemma getRelayChannels_stored (c : pyval) :
  valid c = true ->
  getRelayChannels (Some (json_dump c))
  = (py_get c "relayChannels" (PDict []), Some (json_dump c)).
Proof.
  intros Hv. unfold getRelayChannels, bind. rewrite (loadConfig_stored c Hv).
  unfold lift. now destruct (py_get c "relayChannels" (PDict [])).
Qed.

Lemma getRelayChannels_loaded (f f1 : fs) (c : pyval) :
  loadConfig f = (Ok c, f1) ->
  getRelayChannels f = (py_get c "relayChannels" (PDict []), f1).
Proof.
  intros H. unfold getRelayChannels, bind. rewrite H.
  unfold lift. now destruct (py_get c "relayChannels" (PDict [])).
Qed.

(** ** What the mutating operations write *)

Lemma dict_del_set (d : dict) (k : string) (v : pyval) :
  dict_get d k <> None -> dict_del (dict_set d k v) k = dict_del d k.
Proof.
  induction d as [|[k0 v0] d IH]; simpl; [now intros H; elim H|].
  destruct (String.eqb k k0) eqn:E; simpl; rewrite E; [reflexivity|].
  intros H. now rewrite IH.
Qed.

Lemma remove_first_found (z : Z) (l : list pyval) :
  existsb (eq_int z) l = true -> exists l', remove_first z l = Some l'.
Proof.
  induction l as [|x l IH]; simpl; [discriminate|].
  destruct (eq_int z x); [now eexists|]. simpl. intros H.
  destruct (IH H) as (l' & ->). now eexists.
Qed.

Lemma remove_first_is_found (z : Z) (l l' : list pyval) :
  remove_first z l = Some l' -> existsb (eq_int z) l = true.
Proof.
  revert l'. induction l as [|x l IH]; simpl; [discriminate|].
  destruct (eq_int z x); [reflexivity|]. simpl.
  destruct (remove_first z l); [|discriminate]. intros l' _. now apply (IH l0).
Qed.

Lemma updateRelayChannels_spec (f f1 : fs) (cd relay : dict) (s : string) (d : Z)
    (l0 : list pyval) :
  loadConfig f = (Ok (PDict cd), f1) ->
  py_get (PDict cd) "relayChannels" (PDict []) = Ok (PDict relay) ->
  (dict_get relay s = None /\ l0 = [] \/ dict_get relay s = Some (PList l0)) ->
  updateRelayChannels s d f
  = (Ok tt, Some (json_dump (config_after_add cd relay s l0 d))).
Proof.
  intros Hload Hrelay Hs.
  unfold updateRelayChannels, bind. rewrite Hload.
  unfold lift at 1. rewrite Hrelay.
  unfold lift, py_setdefault, write_config_json, config_after_add.
  destruct Hs as [[Hs ->]|Hs]; rewrite Hs;
    unfold py_append, py_setitem; cbv beta iota; rewrite ?dict_set_set; reflexivity.
Qed.

(** [removeRelayEntry] on a source that is no key, or on a destination that
    is not in the list of the source: [False], and no write. *)
Lemma removeRelayEntry_absent (f f1 : fs) (config : pyval) (relay : dict)
    (s : string) (d : option Z) :
  loadConfig f = (Ok config, f1) ->
  py_get config "relayChannels" (PDict []) = Ok (PDict relay) ->
  (dict_get relay s = None
   \/ exists l z, dict_get relay s = Some (PList l) /\ d = Some z
                  /\ existsb (eq_int z) l = false) ->
  removeRelayEntry s d f = (Ok false, f1).
Proof.
  intros Hload Hrelay Hs.
  unfold removeRelayEntry, bind. rewrite Hload.
  unfold lift at 1. rewrite Hrelay.
  unfold lift, py_contains_str, py_getitem.
  destruct Hs as [Hs|(l & z & Hs & -> & Hz)]; rewrite Hs; cbv beta iota;
    [reflexivity|].
  unfold negb, py_contains_int. now rewrite Hz.
Qed.

Lemma removeRelayEntry_all (f f1 : fs) (cd relay : dict) (s : string) (x : pyval) :
  loadConfig f = (Ok (PDict cd), f1) ->
  py_get (PDict cd) "relayChannels" (PDict []) = Ok (PDict relay) ->
  dict_get relay s = Some x ->
  removeRelayEntry s None f = (Ok true, Some (json_dump (config_after_del cd relay s))).
Proof.
  intros Hload Hrelay Hs.
  unfold removeRelayEntry, bind. rewrite Hload.
  unfold lift at 1. rewrite Hrelay.
  unfold lift, ret, py_contains_str, py_delitem, py_setitem, write_config_json.
  now rewrite Hs.
Qed.

Lemma removeRelayEntry_one (f f1 : fs) (cd relay : dict) (s : string) (d : Z)
    (l l' : list pyval) :
  loadConfig f = (Ok (PDict cd), f1) ->
  py_get (PDict cd) "relayChannels" (PDict []) = Ok (PDict relay) ->
  dict_get relay s = Some (PList l) ->
  remove_first d l = Some l' ->
  removeRelayEntry s (Some d) f
  = (Ok true,
     Some (json_dump (PDict (dict_set cd "relayChannels"
                               (PDict (relay_after_remove relay s l')))))).
Proof.
  intros Hload Hrelay Hs Hl.
  unfold removeRelayEntry, bind. rewrite Hload.
  unfold lift at 1. rewrite Hrelay.
  unfold lift, ret, py_contains_str, py_getitem, py_contains_int, py_remove,
    py_setitem, py_delitem, write_config_json.
  rewrite Hs. cbv beta iota. unfold negb at 1.
  rewrite (remove_first_is_found d l l' Hl), Hl.
  destruct l' as [|y l']; cbn [truthy negb relay_after_remove]; cbv beta iota.
  - rewrite dict_get_set_same, dict_del_set; [reflexivity|]. now rewrite Hs.
  - reflexivity.
Qed.

(** ** The store under [addMapping] and [removeMapping] *)

Lemma forallb_dict_get (p : pyval -> bool) (d : dict) (k : string) (v : pyval) :
  forallb (fun kv => p (snd kv)) d = true -> dict_get d k = Some v -> p v = true.
Proof.
  induction d as [|[k0 v0] d IH]; simpl; [discriminate|].
  intros H. apply andb_prop in H as [H0 Hd].
  destruct (String.eqb k k0); [now intros [= <-] | now apply IH].
Qed.

Lemma forallb_dict_del (p : pyval -> bool) (d : dict) (k : string) :
  forallb (fun kv => p (snd kv)) d = true ->
  forallb (fun kv => p (snd kv)) (dict_del d k) = true.
Proof.
  induction d as [|[k0 v0] d IH]; simpl; [reflexivity|].
  intros H. apply andb_prop in H as [H0 Hd].
  destruct (String.eqb k k0); simpl; [assumption | now rewrite H0, IH].
Qed.

Lemma forallb_remove_first (p : pyval -> bool) (z : Z) (l l' : list pyval) :
  forallb p l = true -> remove_first z l = Some l' -> forallb p l' = true.
Proof.
  revert l'. induction l as [|x l IH]; simpl; [discriminate|].
  intros l' H. apply andb_prop in H as [Hx Hl].
  destruct (eq_int z x); [now intros [= <-]|].
  destruct (remove_first z l) as [l0|]; simpl; [|discriminate].
  intros [= <-]. simpl. now rewrite Hx, (IH l0).
Qed.

Lemma destinations_ok_list (v : pyval) :
  destinations_ok v = true ->
  exists x l, v = PList (x :: l) /\ forallb is_id (x :: l) = true.
Proof.
  destruct v as [| | | |[|x l]|]; try discriminate. intros H. now exists x, l.
Qed.

Lemma destinations_ok_append (l : list pyval) (d : Z) :
  forallb is_id l = true -> destinations_ok (PList (l ++ [PInt d])) = true.
Proof.
  intros H. assert (Ha : forallb is_id (l ++ [PInt d]) = true)
    by now rewrite forallb_app, H.
  destruct l; simpl in *; assumption.
Qed.

Lemma valid_ids (l : list pyval) : forallb is_id l = true -> valid (PList l) = true.
Proof.
  cbn [valid]. induction l as [|x l IH]; simpl; [reflexivity|].
  intros H. apply andb_prop in H as [Hx Hl]. rewrite (IH Hl).
  now destruct x.
Qed.

(** Parts of a well-formed config. *)
Lemma well_formed_parts (c : pyval) :
  well_formed c = true ->
  exists cd relay, c = PDict cd
    /\ dict_get cd "relayChannels" = Some (PDict relay)
    /\ py_get c "relayChannels" (PDict []) = Ok (PDict relay)
    /\ forallb (fun kv => destinations_ok (snd kv)) relay = true.
Proof.
  destruct c as [| | | | |cd]; try discriminate. simpl.
  destruct (dict_get cd "relayChannels") as [[| | | | |relay]|] eqn:E; try discriminate.
  intros H. exists cd, relay. repeat split; assumption.
Qed.

Lemma well_formed_set (cd relay : dict) :
  forallb (fun kv => destinations_ok (snd kv)) relay = true ->
  well_formed (PDict (dict_set cd "relayChannels" (PDict relay))) = true.
Proof. intros H. cbn [well_formed]. now rewrite dict_get_set_same. Qed.

Lemma valid_set_relay (cd relay : dict) :
  valid (PDict cd) = true -> valid (PDict relay) = true ->
  valid (PDict (dict_set cd "relayChannels" (PDict relay))) = true.
Proof. intros. now apply valid_dict_set. Qed.

Lemma updateRelayChannels_keeps_well_formed (s : string) (d : Z) (f : fs) :
  stores_well_formed f -> stores_well_formed (snd (updateRelayChannels s d f)).
Proof.
  intros (c & -> & Hv & Hwf).
  destruct (well_formed_parts c Hwf) as (cd & relay & -> & Hget & Hrelay & Hall).
  pose proof (loadConfig_stored (PDict cd) Hv) as Hload.
  pose proof (valid_py_get _ _ (PDict []) _ Hv eq_refl Hrelay) as Hvr.
  assert (Hl0 : exists l0, (dict_get relay s = None /\ l0 = []
                            \/ dict_get relay s = Some (PList l0))
                           /\ forallb is_id l0 = true).
  { destruct (dict_get relay s) as [v|] eqn:E.
    - apply (forallb_dict_get _ _ _ _ Hall) in E as Hok.
      destruct (destinations_ok_list v Hok) as (x & l & -> & Hids).
      exists (x :: l). split; [now right | assumption].
    - exists []. split; [now left | reflexivity]. }
  destruct Hl0 as (l0 & Hs & Hids).
  rewrite (updateRelayChannels_spec _ _ cd relay s d l0 Hload Hrelay Hs). cbn [snd].
  eexists. split; [reflexivity|]. unfold config_after_add. split.
  - apply valid_set_relay; [assumption|].
    apply valid_dict_set; [assumption|].
    apply valid_ids. now rewrite forallb_app, Hids.
  - apply well_formed_set, forallb_dict_set; [assumption|].
    now apply destinations_ok_append.
Qed.

Lemma removeRelayEntry_keeps_well_formed (s : string) (d : option Z) (f : fs) :
  stores_well_formed f -> stores_well_formed (snd (removeRelayEntry s d f)).
Proof.
  intros (c & -> & Hv & Hwf).
  destruct (well_formed_parts c Hwf) as (cd & relay & -> & Hget & Hrelay & Hall).
  pose proof (loadConfig_stored (PDict cd) Hv) as Hload.
  pose proof (valid_py_get _ _ (PDict []) _ Hv eq_refl Hrelay) as Hvr.
  assert (Hkeep : stores_well_formed (Some (json_dump (PDict cd))))
    by (eexists; repeat split; eassumption).
  destruct (dict_get relay s) as [v|] eqn:E.
  2:{ rewrite (removeRelayEntry_absent _ _ _ relay s d Hload Hrelay); [assumption|].
      now left. }
  destruct d as [z|].
  - apply (forallb_dict_get _ _ _ _ Hall) in E as Hok.
    destruct (destinations_ok_list v Hok) as (x & l & -> & Hids).
    destruct (existsb (eq_int z) (x :: l)) eqn:Hin.
    + destruct (remove_first_found z _ Hin) as (l' & Hl').
      rewrite (removeRelayEntry_one _ _ cd relay s z _ l' Hload Hrelay E Hl'). cbn [snd].
      pose proof (forallb_remove_first _ _ _ _ Hids Hl') as Hids'.
      eexists. split; [reflexivity|]. split.
      * apply valid_set_relay; [assumption|].
        destruct l' as [|y l']; cbn [relay_after_remove].
        -- now apply valid_dict_del.
        -- apply valid_dict_set; [assumption | now apply valid_ids].
      * apply well_formed_set.
        destruct l' as [|y l']; cbn [relay_after_remove].
        -- now apply forallb_dict_del.
        -- now apply forallb_dict_set.
    + rewrite (removeRelayEntry_absent _ _ _ relay s (Some z) Hload Hrelay); [assumption|].
      right. now exists (x :: l), z.
  - rewrite (removeRelayEntry_all _ _ cd relay s v Hload Hrelay E). cbn [snd].
    eexists. split; [reflexivity|]. unfold config_after_del. split.
    + apply valid_set_relay; [assumption | now apply valid_dict_del].
    + now apply well_formed_set, forallb_dict_del.
Qed.

Lemma apply_ops_keeps_well_formed (ops : list op) (f : fs) :
  stores_well_formed f -> stores_well_formed (apply_ops ops f).
Proof.
  revert f. induction ops as [|o ops IH]; intros f H; [exact H|].
  cbn [apply_ops fold_left]. apply IH. destruct o as [s d|s d]; cbn [apply_op].
  - now apply updateRelayChannels_keeps_well_formed.
  - now apply removeRelayEntry_keeps_well_formed.
Qed.

(** C1.  After every sequence of [addMapping]/[removeMapping] calls that
    starts from the file of the default config, the file holds a text that
    [json.loads] turns into a well-formed [RelayConfig]: the
    [relayChannels] field is there and no key maps to an empty list; and
    [loadConfig] returns that config without rewriting the file. *)
Theorem C1_file_stays_well_formed (ops : list op) :
  exists (text : string) (config : pyval),
    apply_ops ops (Some (json_dump defaultConfig)) = Some text
    /\ json_loads text = Ok config
    /\ well_formed config = true
    /\ loadConfig (Some text) = (Ok config, Some text).
Proof.
  destruct (apply_ops_keeps_well_formed ops (Some (json_dump defaultConfig)))
    as (c & E & Hv & Hwf).
  - exists defaultConfig. repeat split.
  - exists (json_dump c), c. rewrite E. repeat split.
    + now apply json_loads_dump.
    + assumption.
    + now apply loadConfig_stored.
Qed.

Lemma py_get_dict (config : pyval) (k : string) (dflt v : pyval) :
  py_get config k dflt = Ok v -> exists cd, config = PDict cd.
Proof. destruct config; try discriminate. now eexists. Qed.

(** Reading the mapping back from a file that holds a config whose
    [relayChannels] field was just set. *)
Lemma getRelayChannels_after_set (cd relay' : dict) :
  valid (PDict cd) = true -> valid (PDict relay') = true ->
  let c' := PDict (dict_set cd "relayChannels" (PDict relay')) in
  loadConfig (Some (json_dump c')) = (Ok c', Some (json_dump c'))
  /\ py_get c' "relayChannels" (PDict []) = Ok (PDict relay')
  /\ getRelayChannels (Some (json_dump c')) = (Ok (PDict relay'), Some (json_dump c')).
Proof.
  intros Hv Hr c'.
  assert (Hv' : valid c' = true) by now apply valid_set_relay.
  assert (Hg : py_get c' "relayChannels" (PDict []) = Ok (PDict relay')).
  { unfold c'. cbn [py_get]. now rewrite dict_get_set_same. }
  repeat split.
  - now apply loadConfig_stored.
  - exact Hg.
  - rewrite (getRelayChannels_stored c' Hv'). now rewrite Hg.
Qed.

Lemma valid_relay (f f1 : fs) (config : pyval) (relay : dict) :
  loadConfig f = (Ok config, f1) ->
  py_get config "relayChannels" (PDict []) = Ok (PDict relay) ->
  valid config = true /\ valid (PDict relay) = true.
Proof.
  intros Hload Hrelay. destruct (loadConfig_settles _ _ _ Hload) as [Hv _].
  split; [assumption|]. now apply (valid_py_get config "relayChannels" (PDict []) _ Hv).
Qed.

Lemma valid_nodup (d : dict) : valid (PDict d) = true -> nodup_keys (dict_keys d) = true.
Proof. cbn [valid]. intros H. now apply andb_prop in H as [H _]. Qed.

(** C4.  When the file holds a config, [removeMapping(s, d)] with [s] no
    key, or with [s] a key whose list has no item equal to [d], returns
    [False] and leaves the file as it is: no write happens. *)
Theorem C4_remove_absent_returns_false (f : fs) (config : pyval) (relay : dict)
    (s : string) (d : option Z) :
  loadConfig f = (Ok config, f) ->
  py_get config "relayChannels" (PDict []) = Ok (PDict relay) ->
  (dict_get relay s = None
   \/ exists l z, dict_get relay s = Some (PList l) /\ d = Some z
                  /\ existsb (eq_int z) l = false) ->
  removeRelayEntry s d f = (Ok false, f).
Proof. intros Hload Hrelay Hs. now apply (removeRelayEntry_absent f f config relay). Qed.

(** C5.  When [d] is the only destination of [s], [removeMapping(s, d)]
    returns [True] and deletes the key [s]: [getRelayChannels()] on the
    file it leaves has no key [s]. *)
Theorem C5_remove_sole_destination (f f1 : fs) (config : pyval) (relay : dict)
    (s : string) (d : Z) :
  loadConfig f = (Ok config, f1) ->
  py_get config "relayChannels" (PDict []) = Ok (PDict relay) ->
  dict_get relay s = Some (PList [PInt d]) ->
  exists f',
    removeRelayEntry s (Some d) f = (Ok true, f')
    /\ getRelayChannels f' = (Ok (PDict (dict_del relay s)), f')
    /\ dict_get (dict_del relay s) s = None.
Proof.
  intros Hload Hrelay Hs.
  destruct (valid_relay _ _ _ _ Hload Hrelay) as [Hv Hvr].
  destruct (py_get_dict _ _ _ _ Hrelay) as (cd & ->).
  assert (Hl : remove_first d [PInt d] = Some []) by (simpl; now rewrite Z.eqb_refl).
  rewrite (removeRelayEntry_one _ _ cd relay s d _ _ Hload Hrelay Hs Hl).
  cbn [relay_after_remove]. eexists. split; [reflexivity|]. split.
  - apply getRelayChannels_after_set; [assumption | now apply valid_dict_del].
  - now apply dict_get_del_same, valid_nodup.
Qed.

(** C6.  When [s] is a key, [removeMapping(s, None)] returns [True] and
    deletes the key [s], whatever is stored under it: [getRelayChannels()]
    on the file it leaves has no key [s]. *)
Theorem C6_remove_all_deletes_key (f f1 : fs) (config : pyval) (relay : dict)
    (s : string) (x : pyval) :
  loadConfig f = (Ok config, f1) ->
  py_get config "relayChannels" (PDict []) = Ok (PDict relay) ->
  dict_get relay s = Some x ->
  exists f',
    removeRelayEntry s None f = (Ok true, f')
    /\ getRelayChannels f' = (Ok (PDict (dict_del relay s)), f')
    /\ dict_get (dict_del relay s) s = None.
Proof.
  intros Hload Hrelay Hs.
  destruct (valid_relay _ _ _ _ Hload Hrelay) as [Hv Hvr].
  destruct (py_get_dict _ _ _ _ Hrelay) as (cd & ->).
  rewrite (removeRelayEntry_all _ _ cd relay s x Hload Hrelay Hs).
  unfold config_after_del. eexists. split; [reflexivity|]. split.
  - apply getRelayChannels_after_set; [assumption | now apply valid_dict_del].
  - now apply dict_get_del_same, valid_nodup.
Qed.

(** One [addMapping], read back. *)
Lemma updateRelayChannels_then_get (f f1 : fs) (config : pyval) (relay : dict)
    (s : string) (d : Z) (l0 : list pyval) :
  loadConfig f = (Ok config, f1) ->
  py_get config "relayChannels" (PDict []) = Ok (PDict relay) ->
  (dict_get relay s = None /\ l0 = [] \/ dict_get relay s = Some (PList l0)) ->
  let relay' := dict_set relay s (PList (l0 ++ [PInt d])) in
  exists f' config',
    updateRelayChannels s d f = (Ok tt, f')
    /\ loadConfig f' = (Ok config', f')
    /\ py_get config' "relayChannels" (PDict []) = Ok (PDict relay')
    /\ getRelayChannels f' = (Ok (PDict relay'), f').
Proof.
  intros Hload Hrelay Hs relay'.
  destruct (valid_relay _ _ _ _ Hload Hrelay) as [Hv Hvr].
  destruct (py_get_dict _ _ _ _ Hrelay) as (cd & ->).
  rewrite (updateRelayChannels_spec _ _ cd relay s d l0 Hload Hrelay Hs).
  assert (Hl0 : valid (PList l0) = true).
  { destruct Hs as [[_ ->]|Hs]; [reflexivity | now apply (valid_dict_get relay s)]. }
  assert (Hr' : valid (PDict relay') = true)
    by (apply valid_dict_set; [assumption | now apply valid_append]).
  destruct (getRelayChannels_after_set cd relay' Hv Hr') as (H1 & H2 & H3).
  eexists _, _. split; [reflexivity|]. repeat split; eassumption.
Qed.

(** C7.  From a config with no key [s] (the scenario has [s = "100"],
    [d1 = 200], [d2 = 300]), [addMapping(s, d1)] creates the list [[d1]]
    and [addMapping(s, d2)] appends to it: [getRelayChannels()[s]] is
    [[d1, d2]], in call order, also when [d2] equals [d1]. *)
Theorem C7_adds_append_in_call_order (f f0 : fs) (config : pyval) (relay : dict)
    (s : string) (d1 d2 : Z) :
  loadConfig f = (Ok config, f0) ->
  py_get config "relayChannels" (PDict []) = Ok (PDict relay) ->
  dict_get relay s = None ->
  exists (f1 f2 : fs) (relay1 relay2 : dict),
    updateRelayChannels s d1 f = (Ok tt, f1)
    /\ getRelayChannels f1 = (Ok (PDict relay1), f1)
    /\ dict_get relay1 s = Some (PList [PInt d1])
    /\ updateRelayChannels s d2 f1 = (Ok tt, f2)
    /\ getRelayChannels f2 = (Ok (PDict relay2), f2)
    /\ dict_get relay2 s = Some (PList [PInt d1; PInt d2]).
Proof.
  intros Hload Hrelay Hs.
  destruct (updateRelayChannels_then_get f f0 config relay s d1 [] Hload Hrelay)
    as (f1 & c1 & Hu1 & Hl1 & Hg1 & Hr1); [now left|].
  cbn [app] in *.
  assert (Hs1 : dict_get (dict_set relay s (PList [PInt d1])) s = Some (PList [PInt d1]))
    by apply dict_get_set_same.
  destruct (updateRelayChannels_then_get f1 f1 c1 _ s d2 [PInt d1] Hl1 Hg1)
    as (f2 & c2 & Hu2 & Hl2 & Hg2 & Hr2); [now right|].
  cbn [app] in *.
  exists f1, f2. eexists _, _. repeat split; try eassumption.
  apply dict_get_set_same.
Qed.

(** The file after a mutation: either the file [loadConfig] left (nothing
    was written: the call returned [False] or raised before the write), or
    the loaded config with a new mapping that differs from the old one at
    the source of the mutation only. *)
Lemma apply_op_file (f f0 : fs) (cd relay : dict) (o : op) :
  loadConfig f = (Ok (PDict cd), f0) ->
  py_get (PDict cd) "relayChannels" (PDict []) = Ok (PDict relay) ->
  apply_op o f = f0
  \/ exists relay',
       apply_op o f = Some (json_dump (PDict (dict_set cd "relayChannels" (PDict relay'))))
       /\ valid (PDict relay') = true
       /\ forall s', s' <> source_of o -> dict_get relay' s' = dict_get relay s'.
Proof.
  intros Hload Hrelay.
  destruct (valid_relay _ _ _ _ Hload Hrelay) as [Hv Hvr].
  destruct o as [s d|s d]; cbn [apply_op source_of].
  - assert (Hadd : forall l0,
               (dict_get relay s = None /\ l0 = [] \/ dict_get relay s = Some (PList l0)) ->
               valid (PList l0) = true ->
               exists relay',
                 snd (updateRelayChannels s d f)
                 = Some (json_dump (PDict (dict_set cd "relayChannels" (PDict relay'))))
                 /\ valid (PDict relay') = true
                 /\ forall s', s' <> s -> dict_get relay' s' = dict_get relay s').
    { intros l0 Hs Hl0.
      rewrite (updateRelayChannels_spec _ _ cd relay s d l0 Hload Hrelay Hs).
      eexists. split; [reflexivity|]. split.
      - apply valid_dict_set; [assumption | now apply valid_append].
      - intros s' Hne. now apply dict_get_set_other. }
    destruct (dict_get relay s) as [v|] eqn:E.
    + destruct v as [| | | |l0|];
        try (left; unfold updateRelayChannels, bind; rewrite Hload;
             unfold lift at 1; rewrite Hrelay;
             unfold lift, py_setdefault; rewrite E; reflexivity).
      right. apply (Hadd l0); [now right | now apply (valid_dict_get relay s)].
    + right. apply (Hadd []); [now left | reflexivity].
  - destruct (dict_get relay s) as [v|] eqn:E.
    2:{ left. rewrite (removeRelayEntry_absent _ _ _ relay s d Hload Hrelay);
          [reflexivity | now left]. }
    destruct d as [z|].
    + destruct v as [| | | |l|];
        try (left; unfold removeRelayEntry, bind; rewrite Hload;
             unfold lift at 1; rewrite Hrelay;
             unfold lift, py_contains_str, py_getitem; rewrite E; reflexivity).
      destruct (existsb (eq_int z) l) eqn:Hin.
      * destruct (remove_first_found z _ Hin) as (l' & Hl').
        right. rewrite (removeRelayEntry_one _ _ cd relay s z _ l' Hload Hrelay E Hl').
        eexists. split; [reflexivity|].
        pose proof (valid_dict_get relay s _ Hvr E) as Hvl.
        pose proof (valid_remove_first z l l' Hvl Hl') as Hvl'.
        destruct l' as [|y l']; cbn [relay_after_remove]; split.
        -- now apply valid_dict_del.
        -- intros s' Hne. now apply dict_get_del_other.
        -- now apply valid_dict_set.
        -- intros s' Hne. now apply dict_get_set_other.
      * left. rewrite (removeRelayEntry_absent _ _ _ relay s (Some z) Hload Hrelay);
          [reflexivity|]. right. now exists l, z.
    + right. rewrite (removeRelayEntry_all _ _ cd relay s v Hload Hrelay E).
      eexists. split; [reflexivity|]. split.
      * now apply valid_dict_del.
      * intros s' Hne. now apply dict_get_del_other.
Qed.

(** C10.  [addMapping(s, d)] and [removeMapping(s, d)] leave the list of
    every other source [s'] as it was, and the config object they persist
    keeps every top-level field other than [relayChannels]; this holds
    whatever the call returns. *)
Theorem C10_mutations_frame (f f0 : fs) (cd relay : dict) (o : op) (s' : string) :
  loadConfig f = (Ok (PDict cd), f0) ->
  py_get (PDict cd) "relayChannels" (PDict []) = Ok (PDict relay) ->
  s' <> source_of o ->
  exists (cd' relay' : dict),
    loadConfig (apply_op o f) = (Ok (PDict cd'), apply_op o f)
    /\ getRelayChannels (apply_op o f) = (Ok (PDict relay'), apply_op o f)
    /\ dict_get relay' s' = dict_get relay s'
    /\ forall k, k <> "relayChannels" -> dict_get cd' k = dict_get cd k.
Proof.
  intros Hload Hrelay Hne.
  destruct (valid_relay _ _ _ _ Hload Hrelay) as [Hv Hvr].
  destruct (apply_op_file f f0 cd relay o Hload Hrelay) as [->|(relay' & -> & Hv' & Hsame)].
  - destruct (loadConfig_settles _ _ _ Hload) as [_ Hagain].
    exists cd, relay. repeat split; try assumption.
    rewrite (getRelayChannels_loaded _ _ _ Hagain). now rewrite Hrelay.
  - destruct (getRelayChannels_after_set cd relay' Hv Hv') as (H1 & H2 & H3).
    eexists _, relay'. split; [exact H1|]. split; [exact H3|]. split.
    + now apply Hsame.
    + intros k Hk. now apply dict_get_set_other.
Qed.

(** C9.  Loading a file that holds [{not json] returns the default config
    and overwrites the file with the default config, pretty-printed. *)
Theorem C9_not_json_is_reset :
  loadConfig (Some "{not json") = (Ok defaultConfig, Some default_text)
  /\ json_dump defaultConfig = default_text
  /\ json_loads default_text = Ok defaultConfig.
Proof. repeat split; vm_compute; reflexivity. Qed.

(** C2, as the code has it.  A file that is empty once stripped, or whose
    stripped text [json.loads] rejects, makes [loadConfig] return the
    default config; when the text is not empty the file is overwritten
    with the default config as well. *)
Theorem C2_load_returns_default (text : string) :
  strip text = EmptyString \/ json_loads (strip text) = Raise JSONDecodeError ->
  fst (loadConfig (Some text)) = Ok defaultConfig
  /\ (strip text <> EmptyString -> repaired_by_load text).
Proof.
  intros H. unfold repaired_by_load.
  pose proof (loadConfig_cases (Some text)) as Hc. cbv beta iota in Hc.
  destruct (String.eqb (strip text) EmptyString) eqn:E.
  - rewrite Hc. split; [reflexivity|].
    intros Hne. apply String.eqb_eq in E. now elim Hne.
  - destruct H as [H|H]; [apply String.eqb_neq in E; now elim E|].
    rewrite H in Hc. rewrite Hc. now split.
Qed.

Lemma C2_load_returns_default_witness :
  json_loads (strip "{not json") = Raise JSONDecodeError
  /\ fst (loadConfig (Some "{not json")) = Ok defaultConfig
  /\ repaired_by_load "{not json".
Proof.
  assert (H : json_loads (strip "{not json") = Raise JSONDecodeError)
    by (vm_compute; reflexivity).
  destruct (C2_load_returns_default "{not json" (or_intror H)) as [H1 H2].
  split; [exact H|]. split; [exact H1|]. apply H2. vm_compute. discriminate.
Defined.

(** C2 fails as it is stated, on two inputs.  The text [[]] is valid JSON
    that is no object: [loadConfig] returns the list and leaves the file.
    An empty file is not overwritten either. *)
Lemma C2_counterexample :
  (json_loads (strip "[]") = Ok (PList [])
   /\ loadConfig (Some "[]") = (Ok (PList []), Some "[]")
   /\ ~ repaired_by_load "[]")
  /\ (strip EmptyString = EmptyString
      /\ loadConfig (Some EmptyString) = (Ok defaultConfig, Some EmptyString)
      /\ ~ repaired_by_load EmptyString).
Proof.
  repeat split; try (vm_compute; reflexivity);
    unfold repaired_by_load; vm_compute; discriminate.
Qed.

(** The loop of [on_message] over destinations that [int] accepts. *)
Lemma for_each_forwards (get_channel : Z -> option channel) (text : string)
    (dests : list pyval) (ids : list Z) :
  Forall2 (fun v i => py_int v = Ok i) dests ids ->
  forall w : world,
    for_each dests (fun destId =>
      i <- lift (py_int destId) ;;
      match get_channel i with
      | Some dest => send dest text
      | None => ret tt
      end) w
    = (Ok tt, mkWorld (config_json w) (outbox w ++ forwards get_channel text ids)
                (arrivals w)).
Proof.
  induction 1 as [|v i dests ids Hv _ IH]; intros w.
  - cbn. rewrite List.app_nil_r. now destruct w.
  - cbn [for_each forwards flat_map]. unfold bind at 1. unfold bind at 1.
    unfold lift. rewrite Hv.
    destruct (get_channel i) as [dest|].
    + unfold send, emit. rewrite IH. cbn. now rewrite <- List.app_assoc.
    + unfold ret. rewrite IH. reflexivity.
Qed.

(** C3.  A message whose author is no bot, arriving on channel [c]: when
    [str(c)] is a key of [getRelayChannels()], its text goes unchanged to
    every destination of the list that [get_channel] resolves, and to
    nothing else ([process_commands] is not called); when it is no key,
    [process_commands] is called and nothing is sent. *)
Theorem C3_router_forwards_or_dispatches (get_channel : Z -> option channel)
    (m : message) (w : world) (relay : dict) (f1 : fs) :
  author_bot m = false ->
  getRelayChannels (config_json w) = (Ok (PDict relay), f1) ->
  (forall dests ids,
      dict_get relay (repr_int (channel_id m)) = Some (PList dests) ->
      Forall2 (fun v i => py_int v = Ok i) dests ids ->
      on_message get_channel m w
      = (Ok tt, mkWorld f1 (outbox w ++ forwards get_channel (content m) ids) (arrivals w))
      /\ forall e, In e (forwards get_channel (content m) ids) ->
           exists i dest, In i ids /\ get_channel i = Some dest
                          /\ e = Sent dest (content m))
  /\ (dict_get relay (repr_int (channel_id m)) = None ->
      on_message get_channel m w
      = (Ok tt, mkWorld f1 (outbox w ++ [ProcessCommands m]) (arrivals w))).
Proof.
  intros Hbot Hget. split.
  - intros dests ids Hkey Hints. split.
    + unfold on_message. rewrite Hbot.
      unfold bind at 1. unfold store. rewrite Hget.
      unfold bind at 1. unfold lift at 1. cbn [py_contains_str]. rewrite Hkey.
      unfold bind at 1. unfold lift at 1. cbn [py_getitem]. rewrite Hkey.
      unfold bind at 1. unfold lift at 1. cbn [py_iter].
      now rewrite (for_each_forwards get_channel (content m) dests ids Hints).
    + intros e He. unfold forwards in He. apply in_flat_map in He as (i & Hi & He).
      destruct (get_channel i) as [dest|] eqn:E; [|destruct He].
      destruct He as [<-|[]]. now exists i, dest.
  - intros Hkey. unfold on_message. rewrite Hbot.
    unfold bind at 1. unfold store. rewrite Hget.
    unfold bind at 1. unfold lift at 1. cbn [py_contains_str]. rewrite Hkey.
    reflexivity.
Qed.

Lemma mentioned_or_typed_names (get_channel : Z -> option channel) (m : message)
    (c : channel) (w : world) :
  names_channel get_channel m c ->
  mentioned_or_typed get_channel m w = (Ok (Some c), w).
Proof.
  unfold names_channel, mentioned_or_typed.
  destruct (channel_mentions m) as [|c' l].
  - intros (i & Hi & Hc). unfold bind, lift, ret. now rewrite Hi, Hc.
  - now intros ->.
Qed.

(** [removeMapping(s)] on a key that is there, read back. *)
Lemma removeRelayEntry_all_then_get (f f1 : fs) (config : pyval) (relay : dict)
    (s : string) (x : pyval) :
  loadConfig f = (Ok config, f1) ->
  py_get config "relayChannels" (PDict []) = Ok (PDict relay) ->
  dict_get relay s = Some x ->
  exists f',
    removeRelayEntry s None f = (Ok true, f')
    /\ getRelayChannels f' = (Ok (PDict (dict_del relay s)), f')
    /\ dict_get (dict_del relay s) s = None.
Proof.
  intros Hload Hrelay Hs.
  destruct (valid_relay _ _ _ _ Hload Hrelay) as [Hv Hvr].
  destruct (py_get_dict _ _ _ _ Hrelay) as (cd & ->).
  rewrite (removeRelayEntry_all _ _ cd relay s x Hload Hrelay Hs).
  unfold config_after_del. eexists. split; [reflexivity|]. split.
  - apply getRelayChannels_after_set; [assumption | now apply valid_dict_del].
  - now apply dict_get_del_same, valid_nodup.
Qed.

(** C8.  In the [remove] flow, once the first reply names a source
    channel, a second reply whose text is [all] in any letter case makes
    the flow call [removeRelayEntry] with the id of the source and no
    destination, and answer by the boolean it returns; when the source is
    a key the call returns [True] and the key is gone afterwards. *)
Theorem C8_remove_flow_all (get_channel : Z -> option channel) (ctx : context)
    (w : world) (sourceMsg destMsg : message) (arr1 arr2 : list (option message))
    (sourceChannel : channel) (success : bool) (f' : fs) :
  next_matching (check_channel ctx) (arrivals w) = (Some sourceMsg, arr1) ->
  names_channel get_channel sourceMsg sourceChannel ->
  next_matching (check_channel ctx) arr1 = (Some destMsg, arr2) ->
  lower (content destMsg) = "all" ->
  removeRelayEntry (repr_int sourceChannel) None (config_json w) = (Ok success, f') ->
  remove get_channel ctx w
  = (Ok tt,
     mkWorld f'
       (outbox w ++ [Sent (ctx_channel ctx) ask_source;
                     Sent (ctx_channel ctx) ask_all_or_destination;
                     Sent (ctx_channel ctx)
                       (if success then removed_all sourceChannel else no_relays_found)])
       arr2)
  /\ forall config f1 relay x,
       loadConfig (config_json w) = (Ok config, f1) ->
       py_get config "relayChannels" (PDict []) = Ok (PDict relay) ->
       dict_get relay (repr_int sourceChannel) = Some x ->
       success = true
       /\ getRelayChannels f' = (Ok (PDict (dict_del relay (repr_int sourceChannel))), f')
       /\ dict_get (dict_del relay (repr_int sourceChannel)) (repr_int sourceChannel) = None.
Proof.
  intros Hw1 Hsrc Hw2 Hall Hrm. split.
  - unfold remove.
    unfold bind at 1. unfold send at 1, emit. cbv beta iota.
    unfold try_except.
    unfold bind at 1. unfold wait_for at 1. cbn [arrivals config_json outbox].
    rewrite Hw1.
    unfold bind at 1. rewrite (mentioned_or_typed_names _ _ _ _ Hsrc).
    unfold bind at 1. unfold send at 1, emit. cbn [arrivals config_json outbox].
    unfold bind at 1. unfold wait_for at 1. cbn [arrivals config_json outbox].
    rewrite Hw2, Hall. cbn [String.eqb Ascii.eqb Bool.eqb].
    unfold bind at 1. unfold store. cbn [arrivals config_json outbox].
    rewrite Hrm.
    destruct success; unfold send, emit; cbn [arrivals config_json outbox];
      now rewrite <- !List.app_assoc.
  - intros config f1 relay x Hload Hrelay Hkey.
    destruct (removeRelayEntry_all_then_get _ _ _ _ _ _ Hload Hrelay Hkey)
      as (f'' & Hrm' & Hget & Hgone).
    rewrite Hrm' in Hrm. injection Hrm as <- <-. now repeat split.
Qed.

(** After one or more [addMapping(s, _)] calls, [removeMapping(s)] returns
    [True] and [getRelayChannels()] has no key [s], from every config in
    which [s] is no key or the key of a list. *)
Lemma adds_then_remove_all (s : string) (ds : list Z) :
  forall (d : Z) (f f1 : fs) (config : pyval) (relay : dict),
    loadConfig f = (Ok config, f1) ->
    py_get config "relayChannels" (PDict []) = Ok (PDict relay) ->
    (dict_get relay s = None \/ exists l, dict_get relay s = Some (PList l)) ->
    exists (f' : fs) (relay' : dict),
      removeRelayEntry s None (apply_ops (map (addMapping s) (d :: ds)) f) = (Ok true, f')
      /\ getRelayChannels f' = (Ok (PDict relay'), f')
      /\ dict_get relay' s = None.
Proof.
  induction ds as [|d' ds IH]; intros d f f1 config relay Hload Hrelay Hs.
  - assert (Hl0 : exists l0, dict_get relay s = None /\ l0 = []
                             \/ dict_get relay s = Some (PList l0)).
    { destruct Hs as [Hs|(l & Hs)]; [exists []; now left | exists l; now right]. }
    destruct Hl0 as (l0 & Hl0).
    destruct (updateRelayChannels_then_get f f1 config relay s d l0 Hload Hrelay Hl0)
      as (f2 & c2 & Hu & Hl2 & Hg2 & _).
    cbn [map apply_ops fold_left apply_op]. rewrite Hu. cbn [snd].
    destruct (removeRelayEntry_all_then_get f2 f2 c2 _ s _ Hl2 Hg2
                (dict_get_set_same relay s _)) as (f' & H1 & H2 & H3).
    exists f'. eexists. repeat split; eassumption.
  - assert (Hl0 : exists l0, dict_get relay s = None /\ l0 = []
                             \/ dict_get relay s = Some (PList l0)).
    { destruct Hs as [Hs|(l & Hs)]; [exists []; now left | exists l; now right]. }
    destruct Hl0 as (l0 & Hl0).
    destruct (updateRelayChannels_then_get f f1 config relay s d l0 Hload Hrelay Hl0)
      as (f2 & c2 & Hu & Hl2 & Hg2 & _).
    change (apply_ops (map (addMapping s) (d :: d' :: ds)) f)
      with (apply_ops (map (addMapping s) (d' :: ds)) (snd (updateRelayChannels s d f))).
    rewrite Hu. cbn [snd].
    apply (IH d' f2 f2 c2 _ Hl2 Hg2).
    right. eexists. apply dict_get_set_same.
Qed.

Lemma C4_remove_absent_returns_false_witness :
  removeRelayEntry "100" (Some 300) file_100_200 = (Ok false, file_100_200)
  /\ removeRelayEntry "999" None file_100_200 = (Ok false, file_100_200).
Proof.
  split.
  - apply (C4_remove_absent_returns_false file_100_200 config_100_200 relay_100_200).
    + vm_compute. reflexivity.
    + reflexivity.
    + right. exists [PInt 200], 300. repeat split.
  - apply (C4_remove_absent_returns_false file_100_200 config_100_200 relay_100_200).
    + vm_compute. reflexivity.
    + reflexivity.
    + left. reflexivity.
Defined.

Lemma C5_remove_sole_destination_witness :
  exists f',
    removeRelayEntry "100" (Some 200) file_100_200 = (Ok true, f')
    /\ getRelayChannels f' = (Ok (PDict (dict_del relay_100_200 "100")), f')
    /\ dict_get (dict_del relay_100_200 "100") "100" = None.
Proof.
  apply (C5_remove_sole_destination file_100_200 file_100_200 config_100_200).
  - vm_compute. reflexivity.
  - reflexivity.
  - reflexivity.
Defined.

Lemma C6_remove_all_deletes_key_witness :
  exists f',
    removeRelayEntry "100" None file_100_200 = (Ok true, f')
    /\ getRelayChannels f' = (Ok (PDict (dict_del relay_100_200 "100")), f')
    /\ dict_get (dict_del relay_100_200 "100") "100" = None.
Proof.
  apply (C6_remove_all_deletes_key file_100_200 file_100_200 config_100_200
           relay_100_200 "100" (PList [PInt 200])).
  - vm_compute. reflexivity.
  - reflexivity.
  - reflexivity.
Defined.

(** The scenario of the spec, from the default config. *)
Lemma C7_adds_append_in_call_order_witness :
  exists (f1 f2 : fs) (relay1 relay2 : dict),
    updateRelayChannels "100" 200 (Some (json_dump defaultConfig)) = (Ok tt, f1)
    /\ getRelayChannels f1 = (Ok (PDict relay1), f1)
    /\ dict_get relay1 "100" = Some (PList [PInt 200])
    /\ updateRelayChannels "100" 300 f1 = (Ok tt, f2)
    /\ getRelayChannels f2 = (Ok (PDict relay2), f2)
    /\ dict_get relay2 "100" = Some (PList [PInt 200; PInt 300]).
Proof.
  apply (C7_adds_append_in_call_order (Some (json_dump defaultConfig))
           (Some (json_dump defaultConfig)) defaultConfig []).
  - vm_compute. reflexivity.
  - reflexivity.
  - reflexivity.
Defined.

Lemma C10_mutations_frame_witness :
  exists (cd' relay' : dict),
    loadConfig (apply_op (addMapping "300" 400) file_100_200)
    = (Ok (PDict cd'), apply_op (addMapping "300" 400) file_100_200)
    /\ getRelayChannels (apply_op (addMapping "300" 400) file_100_200)
       = (Ok (PDict relay'), apply_op (addMapping "300" 400) file_100_200)
    /\ dict_get relay' "100" = dict_get relay_100_200 "100"
    /\ forall k, k <> "relayChannels" ->
         dict_get cd' k = dict_get [("relayChannels", PDict relay_100_200)] k.
Proof.
  apply (C10_mutations_frame file_100_200 file_100_200
           [("relayChannels", PDict relay_100_200)] relay_100_200
           (addMapping "300" 400) "100").
  - vm_compute. reflexivity.
  - reflexivity.
  - cbn. discriminate.
Defined.

Lemma C3_router_forwards_or_dispatches_witness :
  on_message known_channels message_on_100 world_100_200
  = (Ok tt, mkWorld file_100_200 [Sent 200 "<remove"] [])
  /\ on_message known_channels message_on_101 world_100_200
     = (Ok tt, mkWorld file_100_200 [ProcessCommands message_on_101] []).
Proof.
  split.
  - apply (proj1 (C3_router_forwards_or_dispatches known_channels message_on_100
                    world_100_200 relay_100_200 file_100_200 eq_refl
                    ltac:(vm_compute; reflexivity))
             [PInt 200] [200]).
    + reflexivity.
    + repeat constructor.
  - apply (proj2 (C3_router_forwards_or_dispatches known_channels message_on_101
                    world_100_200 relay_100_200 file_100_200 eq_refl
                    ltac:(vm_compute; reflexivity))).
    reflexivity.
Defined.

Lemma C8_remove_flow_all_witness :
  remove known_channels (mkContext 7 50) (mkWorld file_100_200 [] remove_all_arrivals)
  = (Ok tt,
     mkWorld (Some (json_dump defaultConfig))
       [Sent 50 ask_source; Sent 50 ask_all_or_destination; Sent 50 (removed_all 100)]
       []).
Proof.
  apply (proj1 (C8_remove_flow_all known_channels (mkContext 7 50)
                  (mkWorld file_100_200 [] remove_all_arrivals)
                  (mkMessage 7 false 50 " 100 " []) (mkMessage 7 false 50 "All" [])
                  [Some (mkMessage 7 false 50 "All" [])] [] 100 true
                  (Some (json_dump defaultConfig))
                  eq_refl
                  (ex_intro _ 100 (conj eq_refl eq_refl))
                  eq_refl eq_refl
                  ltac:(vm_compute; reflexivity))).
Defined.

(** * Further properties of the store, the router and the commands *)

(** ** More on [loadConfig] and on files that hold no config *)

Lemma loadConfig_yields_default (f : fs) :
  yields_default f -> exists f1, loadConfig f = (Ok defaultConfig, f1).
Proof.
  intros H. pose proof (loadConfig_cases f) as Hc.
  destruct f as [text|]; [|eexists; exact Hc].
  destruct (String.eqb (strip text) EmptyString) eqn:E; [eexists; exact Hc|].
  destruct H as [H|H]; [apply String.eqb_neq in E; now elim E|].
  rewrite H in Hc. eexists; exact Hc.
Qed.

(** X1.  Loading settles the file: once [loadConfig] has returned a config,
    loading again returns the same config and leaves the file as it is. *)
Theorem X1_loadConfig_settles_file (f f1 : fs) (config : pyval) :
  loadConfig f = (Ok config, f1) -> loadConfig f1 = (Ok config, f1).
Proof. intros H. now apply (loadConfig_settles f f1 config). Qed.

Lemma X1_loadConfig_settles_file_witness :
  loadConfig (Some (json_dump defaultConfig))
  = (Ok defaultConfig, Some (json_dump defaultConfig)).
Proof.
  apply (X1_loadConfig_settles_file None (Some (json_dump defaultConfig)) defaultConfig).
  reflexivity.
Defined.


(** X3.  A file that holds valid JSON which is no object is never
    repaired: every operation of the store raises [AttributeError] on it
    and leaves it as it is. *)
Theorem X3_not_an_object_raises (text : string) (v : pyval) (s : string)
    (d : Z) (dopt : option Z) :
  strip text <> EmptyString ->
  json_loads (strip text) = Ok v ->
  (forall cd, v <> PDict cd) ->
  getRelayChannels (Some text) = (Raise AttributeError, Some text)
  /\ updateRelayChannels s d (Some text) = (Raise AttributeError, Some text)
  /\ removeRelayEntry s dopt (Some text) = (Raise AttributeError, Some text).
Proof.
  intros Hne Hj Hv.
  pose proof (loadConfig_cases (Some text)) as Hc. cbv beta iota in Hc.
  apply String.eqb_neq in Hne. rewrite Hne, Hj in Hc.
  assert (Hg : py_get v "relayChannels" (PDict []) = Raise AttributeError).
  { destruct v; try reflexivity. now elim (Hv d0). }
  unfold getRelayChannels, updateRelayChannels, removeRelayEntry, bind.
  rewrite Hc. unfold lift. rewrite Hg. now repeat split.
Qed.

Lemma X3_not_an_object_raises_witness :
  getRelayChannels (Some "[]") = (Raise AttributeError, Some "[]")
  /\ updateRelayChannels "100" 200 (Some "[]") = (Raise AttributeError, Some "[]")
  /\ removeRelayEntry "100" None (Some "[]") = (Raise AttributeError, Some "[]").
Proof.
  apply (X3_not_an_object_raises "[]" (PList []) "100" 200 None).
  - vm_compute. discriminate.
  - vm_compute. reflexivity.
  - discriminate.
Defined.

(** X4.  [updateRelayChannels] writes last: when it does not return, the
    file is the one [loadConfig] left. *)
Theorem X4_failed_add_writes_nothing (s : string) (d : Z) (f f' : fs)
    (r : result unit) :
  updateRelayChannels s d f = (r, f') -> r <> Ok tt -> f' = snd (loadConfig f).
Proof.
  unfold updateRelayChannels, bind, lift, write_config_json.
  destruct (loadConfig f) as [[config|e|] f1]; cbn [snd];
    try (now intros [= <- <-]).
  destruct (py_get config "relayChannels" (PDict [])) as [relay|e|];
    try (now intros [= <- <-]).
  destruct (py_setdefault relay s) as [[dests relay1]|e|];
    try (now intros [= <- <-]).
  destruct (py_append dests (PInt d)) as [dests'|e|]; try (now intros [= <- <-]).
  destruct (py_setitem relay1 s dests') as [relay2|e|]; try (now intros [= <- <-]).
  destruct (py_setitem config "relayChannels" relay2) as [config'|e|];
    now intros [= <- <-].
Qed.

Lemma X4_failed_add_writes_nothing_witness :
  snd (updateRelayChannels "100" 200 (Some "[]")) = snd (loadConfig (Some "[]")).
Proof.
  apply (X4_failed_add_writes_nothing "100" 200 (Some "[]") _ (Raise AttributeError)).
  - vm_compute. reflexivity.
  - discriminate.
Defined.

(** X5.  [removeRelayEntry] writes last too: unless it returns [True], the
    file is the one [loadConfig] left. *)
Theorem X5_failed_remove_writes_nothing (s : string) (d : option Z) (f f' : fs)
    (r : result bool) :
  removeRelayEntry s d f = (r, f') -> r <> Ok true -> f' = snd (loadConfig f).
Proof.
  unfold removeRelayEntry, bind, lift, ret, write_config_json.
  destruct (loadConfig f) as [[config|e|] f1]; cbn [snd];
    try (now intros [= <- <-]).
  destruct (py_get config "relayChannels" (PDict [])) as [relay|e|];
    try (now intros [= <- <-]).
  destruct (py_contains_str relay s) as [[|]|e|]; cbn [negb];
    try (now intros [= <- <-]).
  destruct d as [z|].
  - destruct (py_getitem relay s) as [dests|e|]; try (now intros [= <- <-]).
    destruct (py_contains_int dests z) as [[|]|e|]; try (now intros [= <- <-]).
    destruct (py_remove dests z) as [dests'|e|]; try (now intros [= <- <-]).
    destruct (py_setitem relay s dests') as [rc|e|]; try (now intros [= <- <-]).
    destruct (negb (truthy dests')).
    + destruct (py_delitem rc s) as [rc'|e|]; try (now intros [= <- <-]).
      destruct (py_setitem config "relayChannels" rc') as [c'|e|];
        now intros [= <- <-].
    + destruct (py_setitem config "relayChannels" rc) as [c'|e|];
        now intros [= <- <-].
  - destruct (py_delitem relay s) as [rc|e|]; try (now intros [= <- <-]).
    destruct (py_setitem config "relayChannels" rc) as [c'|e|];
      now intros [= <- <-].
Qed.

Lemma X5_failed_remove_writes_nothing_witness :
  snd (removeRelayEntry "100" (Some 200) None) = snd (loadConfig None).
Proof.
  apply (X5_failed_remove_writes_nothing "100" (Some 200) None _ (Ok false)).
  - vm_compute. reflexivity.
  - discriminate.
Defined.

(** X6.  On a file that is missing, blank or not JSON,
    [updateRelayChannels] starts from the default config: what it writes is
    the single relay from [s] to [d], and whatever the file held is gone. *)
Theorem X6_add_on_unusable_file (f : fs) (s : string) (d : Z) :
  yields_default f ->
  updateRelayChannels s d f = (Ok tt, Some (json_dump (single_relay s d))).
Proof.
  intros H. destruct (loadConfig_yields_default f H) as (f1 & Hload).
  apply (updateRelayChannels_spec f f1 [("relayChannels", PDict [])] [] s d []
           Hload eq_refl).
  now left.
Qed.

Lemma X6_add_on_unusable_file_witness :
  updateRelayChannels "100" 200 (Some "{not json")
  = (Ok tt, Some (json_dump (single_relay "100" 200))).
Proof.
  apply (X6_add_on_unusable_file (Some "{not json") "100" 200).
  right. vm_compute. reflexivity.
Defined.

(** ** Adding and then removing *)

Lemma dict_del_set_fresh (d : dict) (k : string) (v : pyval) :
  dict_get d k = None -> dict_del (dict_set d k v) k = d.
Proof.
  induction d as [|[k0 v0] d IH]; simpl.
  - now rewrite String.eqb_refl.
  - destruct (String.eqb k k0) eqn:E; [discriminate|]. intros H.
    simpl. rewrite E. now rewrite IH.
Qed.

Lemma dict_set_same_value (d : dict) (k : string) (v : pyval) :
  dict_get d k = Some v -> dict_set d k v = d.
Proof.
  induction d as [|[k0 v0] d IH]; simpl; [discriminate|].
  destruct (String.eqb k k0) eqn:E.
  - now intros [= ->].
  - intros H. now rewrite IH.
Qed.

Lemma remove_first_split (z : Z) (l1 : list pyval) (x : pyval) (l2 : list pyval) :
  existsb (eq_int z) l1 = false -> eq_int z x = true ->
  remove_first z (l1 ++ x :: l2) = Some (l1 ++ l2)%list.
Proof.
  intros H1 Hx. induction l1 as [|y l1 IH]; simpl in *.
  - now rewrite Hx.
  - apply orb_false_elim in H1 as [Hy H1]. now rewrite Hy, (IH H1).
Qed.

Lemma remove_first_appended (z : Z) (l : list pyval) :
  existsb (eq_int z) l = false -> remove_first z (l ++ [PInt z]) = Some l.
Proof.
  intros H. rewrite (remove_first_split z l (PInt z) [] H).
  - now rewrite List.app_nil_r.
  - simpl. apply Z.eqb_refl.
Qed.

(** One destination leaves the list of [s], read back: the mapping
    afterwards is [relay_after_remove]. *)
Lemma removeRelayEntry_one_then_get (f f1 : fs) (config : pyval) (relay : dict)
    (s : string) (d : Z) (l l' : list pyval) :
  loadConfig f = (Ok config, f1) ->
  py_get config "relayChannels" (PDict []) = Ok (PDict relay) ->
  dict_get relay s = Some (PList l) ->
  remove_first d l = Some l' ->
  exists f',
    removeRelayEntry s (Some d) f = (Ok true, f')
    /\ getRelayChannels f' = (Ok (PDict (relay_after_remove relay s l')), f').
Proof.
  intros Hload Hrelay Hs Hl.
  destruct (valid_relay _ _ _ _ Hload Hrelay) as [Hv Hvr].
  destruct (py_get_dict _ _ _ _ Hrelay) as (cd & ->).
  rewrite (removeRelayEntry_one _ _ cd relay s d l l' Hload Hrelay Hs Hl).
  eexists. split; [reflexivity|].
  apply getRelayChannels_after_set; [assumption|].
  pose proof (valid_dict_get relay s _ Hvr Hs) as Hvl.
  pose proof (valid_remove_first d l l' Hvl Hl) as Hvl'.
  destruct l' as [|y l']; cbn [relay_after_remove].
  - now apply valid_dict_del.
  - now apply valid_dict_set.
Qed.

(** X7.  Adding a destination and removing it again gives the mapping
    back, key order included, when the destination was not in the list
    before: a new key goes away again, an old list is as it was. *)
Theorem X7_add_then_remove_restores (f f0 : fs) (config : pyval) (relay : dict)
    (s : string) (d : Z) (l0 : list pyval) :
  loadConfig f = (Ok config, f0) ->
  py_get config "relayChannels" (PDict []) = Ok (PDict relay) ->
  (dict_get relay s = None /\ l0 = []
   \/ dict_get relay s = Some (PList l0) /\ l0 <> []) ->
  existsb (eq_int d) l0 = false ->
  exists f1 f2 : fs,
    updateRelayChannels s d f = (Ok tt, f1)
    /\ removeRelayEntry s (Some d) f1 = (Ok true, f2)
    /\ getRelayChannels f2 = (Ok (PDict relay), f2).
Proof.
  intros Hload Hrelay Hs Hd.
  assert (Hs' : dict_get relay s = None /\ l0 = [] \/ dict_get relay s = Some (PList l0))
    by (destruct Hs as [Hs|[Hs _]]; [now left | now right]).
  destruct (updateRelayChannels_then_get f f0 config relay s d l0 Hload Hrelay Hs')
    as (f1 & c1 & Hu & Hl1 & Hg1 & _).
  destruct (removeRelayEntry_one_then_get f1 f1 c1 _ s d (l0 ++ [PInt d]) l0 Hl1 Hg1
              (dict_get_set_same relay s _) (remove_first_appended d l0 Hd))
    as (f2 & Hr & Hg2).
  exists f1, f2. split; [assumption|]. split; [assumption|].
  rewrite Hg2. do 3 f_equal.
  destruct Hs as [[Hs ->]|[Hs Hne]]; cbn [relay_after_remove].
  - now apply dict_del_set_fresh.
  - destruct l0 as [|y l0]; [now elim Hne|]. cbn [relay_after_remove].
    rewrite dict_set_set. now apply dict_set_same_value.
Qed.

Lemma X7_add_then_remove_restores_witness :
  exists f1 f2 : fs,
    updateRelayChannels "100" 300 file_100_200 = (Ok tt, f1)
    /\ removeRelayEntry "100" (Some 300) f1 = (Ok true, f2)
    /\ getRelayChannels f2 = (Ok (PDict relay_100_200), f2).
Proof.
  apply (X7_add_then_remove_restores file_100_200 file_100_200 config_100_200
           relay_100_200 "100" 300 [PInt 200]).
  - vm_compute. reflexivity.
  - reflexivity.
  - right. split; [reflexivity | discriminate].
  - reflexivity.
Defined.

(** X8.  [removeRelayEntry] takes the first item equal to the destination
    out of the list and keeps the others in their order, later copies of
    the destination included; the key stays while the list is not empty. *)
Theorem X8_remove_takes_first_occurrence (f f0 : fs) (config : pyval) (relay : dict)
    (s : string) (d : Z) (l1 : list pyval) (x : pyval) (l2 : list pyval) :
  loadConfig f = (Ok config, f0) ->
  py_get config "relayChannels" (PDict []) = Ok (PDict relay) ->
  dict_get relay s = Some (PList (l1 ++ x :: l2)) ->
  existsb (eq_int d) l1 = false ->
  eq_int d x = true ->
  (l1 ++ l2)%list <> [] ->
  exists (f' : fs) (relay' : dict),
    removeRelayEntry s (Some d) f = (Ok true, f')
    /\ getRelayChannels f' = (Ok (PDict relay'), f')
    /\ dict_get relay' s = Some (PList (l1 ++ l2))
    /\ forall s', s' <> s -> dict_get relay' s' = dict_get relay s'.
Proof.
  intros Hload Hrelay Hs H1 Hx Hne.
  destruct (removeRelayEntry_one_then_get f f0 config relay s d _ _ Hload Hrelay Hs
              (remove_first_split d l1 x l2 H1 Hx)) as (f' & Hr & Hg).
  exists f'. eexists. split; [exact Hr|]. split; [exact Hg|].
  destruct (l1 ++ l2)%list as [|y l] eqn:E; [now elim Hne|]. cbn [relay_after_remove].
  split; [apply dict_get_set_same|].
  intros s' Hs'. now apply dict_get_set_other.
Qed.

Lemma X8_remove_takes_first_occurrence_witness :
  exists (f' : fs) (relay' : dict),
    removeRelayEntry "100" (Some 200) file_with_copies = (Ok true, f')
    /\ getRelayChannels f' = (Ok (PDict relay'), f')
    /\ dict_get relay' "100" = Some (PList [PInt 300; PInt 200])
    /\ forall s', s' <> "100" -> dict_get relay' s' = dict_get relay_with_copies s'.
Proof.
  apply (X8_remove_takes_first_occurrence file_with_copies file_with_copies
           (PDict [("relayChannels", PDict relay_with_copies)]) relay_with_copies
           "100" 200 [] (PInt 200) [PInt 300; PInt 200]).
  - vm_compute. reflexivity.
  - reflexivity.
  - reflexivity.
  - reflexivity.
  - reflexivity.
  - discriminate.
Defined.

(** ** The router on every config *)

(** The loop of [on_message] touches the outbox only: its outcome and the
    events it adds do not depend on the world it runs in. *)
Lemma for_each_sends (get_channel : Z -> option channel) (text : string)
    (items : list pyval) :
  exists (r : result unit) (evs : list event),
    Forall (sends text) evs
    /\ forall w : world,
         for_each items (fun destId =>
           i <- lift (py_int destId) ;;
           match get_channel i with
           | Some dest => send dest text
           | None => ret tt
           end) w
         = (r, mkWorld (config_json w) (outbox w ++ evs) (arrivals w)).
Proof.
  induction items as [|x items (r & evs & Hall & IH)].
  - exists (Ok tt), []. split; [constructor|].
    intros w. cbn. rewrite List.app_nil_r. now destruct w.
  - destruct (py_int x) as [i|e|] eqn:Hx.
    + destruct (get_channel i) as [dest|] eqn:Hc.
      * exists r, (Sent dest text :: evs). split.
        -- constructor; [now exists dest | assumption].
        -- intros w. cbn [for_each]. unfold bind at 1. unfold bind at 1.
           unfold lift. rewrite Hx, Hc. unfold send, emit. rewrite IH. cbn.
           now rewrite <- List.app_assoc.
      * exists r, evs. split; [assumption|].
        intros w. cbn [for_each]. unfold bind at 1. unfold bind at 1.
        unfold lift. rewrite Hx, Hc. unfold ret. now rewrite IH.
    + exists (Raise e), []. split; [constructor|].
      intros w. cbn [for_each]. unfold bind at 1. unfold bind at 1.
      unfold lift. rewrite Hx. rewrite List.app_nil_r. now destruct w.
    + exists Unmodelled, []. split; [constructor|].
      intros w. cbn [for_each]. unfold bind at 1. unfold bind at 1.
      unfold lift. rewrite Hx. rewrite List.app_nil_r. now destruct w.
Qed.

(** What [on_message] does with a message of a user, given what
    [getRelayChannels] returned: the outcome and the events depend on the
    entry of the channel only. *)
Lemma on_message_by_entry (get_channel : Z -> option channel) (m : message)
    (entry : option pyval) :
  exists (r : result unit) (evs : list event),
    (Forall (sends (content m)) evs \/ evs = [ProcessCommands m])
    /\ forall (w : world) (relay : dict) (f1 : fs),
         author_bot m = false ->
         getRelayChannels (config_json w) = (Ok (PDict relay), f1) ->
         dict_get relay (repr_int (channel_id m)) = entry ->
         on_message get_channel m w = (r, mkWorld f1 (outbox w ++ evs) (arrivals w)).
Proof.
  destruct entry as [dests|].
  - destruct (py_iter dests) as [items|e|] eqn:Hi.
    + destruct (for_each_sends get_channel (content m) items) as (r & evs & Hall & Hloop).
      exists r, evs. split; [now left|].
      intros w relay f1 Hbot Hget Hkey. unfold on_message. rewrite Hbot.
      unfold bind at 1. unfold store. rewrite Hget.
      unfold bind at 1. unfold lift at 1. cbn [py_contains_str]. rewrite Hkey.
      unfold bind at 1. unfold lift at 1. cbn [py_getitem]. rewrite Hkey.
      unfold bind at 1. unfold lift at 1. rewrite Hi.
      now rewrite Hloop.
    + exists (Raise e), []. split; [left; constructor|].
      intros w relay f1 Hbot Hget Hkey. unfold on_message. rewrite Hbot.
      unfold bind at 1. unfold store. rewrite Hget.
      unfold bind at 1. unfold lift at 1. cbn [py_contains_str]. rewrite Hkey.
      unfold bind at 1. unfold lift at 1. cbn [py_getitem]. rewrite Hkey.
      unfold bind at 1. unfold lift at 1. rewrite Hi.
      now rewrite List.app_nil_r.
    + exists Unmodelled, []. split; [left; constructor|].
      intros w relay f1 Hbot Hget Hkey. unfold on_message. rewrite Hbot.
      unfold bind at 1. unfold store. rewrite Hget.
      unfold bind at 1. unfold lift at 1. cbn [py_contains_str]. rewrite Hkey.
      unfold bind at 1. unfold lift at 1. cbn [py_getitem]. rewrite Hkey.
      unfold bind at 1. unfold lift at 1. rewrite Hi.
      now rewrite List.app_nil_r.
  - exists (Ok tt), [ProcessCommands m]. split; [now right|].
    intros w relay f1 Hbot Hget Hkey. unfold on_message. rewrite Hbot.
    unfold bind at 1. unfold store. rewrite Hget.
    unfold bind at 1. unfold lift at 1. cbn [py_contains_str]. rewrite Hkey.
    reflexivity.
Qed.

Lemma getRelayChannels_file (f : fs) : snd (getRelayChannels f) = snd (loadConfig f).
Proof.
  unfold getRelayChannels, bind, lift.
  destruct (loadConfig f) as [[c|e|] f1]; try reflexivity.
Qed.

(** X9.  Whatever the file holds and however [on_message] ends, it leaves
    the pending arrivals alone, changes the file only as [loadConfig] does
    (not at all for a message of a bot), and emits either sends of the
    text of the message as it is, or one [process_commands], never both. *)
Theorem X9_on_message_effects (get_channel : Z -> option channel) (m : message)
    (w w' : world) (r : result unit) :
  on_message get_channel m w = (r, w') ->
  arrivals w' = arrivals w
  /\ config_json w'
     = (if author_bot m then config_json w else snd (loadConfig (config_json w)))
  /\ exists evs : list event,
       outbox w' = (outbox w ++ evs)%list
       /\ (Forall (sends (content m)) evs \/ evs = [ProcessCommands m]).
Proof.
  destruct (author_bot m) eqn:Hbot.
  - unfold on_message. rewrite Hbot. intros [= <- <-].
    repeat split. exists []. split; [now rewrite List.app_nil_r | left; constructor].
  - destruct (getRelayChannels (config_json w)) as [rc f1] eqn:Hget.
    assert (Hf : f1 = snd (loadConfig (config_json w)))
      by (rewrite <- getRelayChannels_file, Hget; reflexivity).
    assert (Hstop : forall x : result unit,
               (x = Unmodelled \/ exists e, x = Raise e) ->
               on_message get_channel m w = (x, mkWorld f1 (outbox w) (arrivals w)) ->
               on_message get_channel m w = (r, w') ->
               arrivals w' = arrivals w /\ config_json w' = snd (loadConfig (config_json w))
               /\ exists evs, outbox w' = (outbox w ++ evs)%list
                    /\ (Forall (sends (content m)) evs \/ evs = [ProcessCommands m])).
    { intros x _ Hx H. rewrite Hx in H. injection H as <- <-. cbn.
      repeat split; [now symmetry|]. exists [].
      split; [now rewrite List.app_nil_r | left; constructor]. }
    destruct rc as [relayChannels|e|].
    + destruct relayChannels as [| | | | |relay];
        try (apply (Hstop (Raise TypeError)); [right; now eexists|];
             unfold on_message; rewrite Hbot; unfold bind at 1; unfold store;
             rewrite Hget; reflexivity).
      * (* a string: [in] is the substring test, and indexing fails *)
        destruct (is_substring (repr_int (channel_id m)) s) eqn:Hsub.
        -- apply (Hstop (Raise TypeError)); [right; now eexists|].
           unfold on_message; rewrite Hbot; unfold bind at 1; unfold store;
             rewrite Hget. unfold bind at 1. unfold lift at 1. cbn [py_contains_str].
           rewrite Hsub. reflexivity.
        -- unfold on_message; rewrite Hbot; unfold bind at 1; unfold store;
             rewrite Hget. unfold bind at 1. unfold lift at 1. cbn [py_contains_str].
           rewrite Hsub. intros [= <- <-]. cbn. repeat split; [now symmetry|].
           exists [ProcessCommands m]. now split; [|right].
      * (* a list: [in] compares the items, and indexing fails *)
        destruct (existsb (eq_str (repr_int (channel_id m))) l) eqn:Hin.
        -- apply (Hstop (Raise TypeError)); [right; now eexists|].
           unfold on_message; rewrite Hbot; unfold bind at 1; unfold store;
             rewrite Hget. unfold bind at 1. unfold lift at 1. cbn [py_contains_str].
           rewrite Hin. reflexivity.
        -- unfold on_message; rewrite Hbot; unfold bind at 1; unfold store;
             rewrite Hget. unfold bind at 1. unfold lift at 1. cbn [py_contains_str].
           rewrite Hin. intros [= <- <-]. cbn. repeat split; [now symmetry|].
           exists [ProcessCommands m]. now split; [|right].
      * destruct (on_message_by_entry get_channel m
                    (dict_get relay (repr_int (channel_id m))))
          as (r0 & evs & Hshape & Hrun).
        rewrite (Hrun w relay f1 Hbot Hget eq_refl). intros [= <- <-]. cbn.
        repeat split; [now symmetry|]. now exists evs.
    + apply (Hstop (Raise e)); [right; now eexists|].
      unfold on_message; rewrite Hbot; unfold bind at 1; unfold store;
        rewrite Hget; reflexivity.
    + apply (Hstop Unmodelled); [now left|].
      unfold on_message; rewrite Hbot; unfold bind at 1; unfold store;
        rewrite Hget; reflexivity.
Qed.

Lemma X9_on_message_effects_witness :
  arrivals (snd (on_message known_channels message_on_100 world_100_200)) = []
  /\ config_json (snd (on_message known_channels message_on_100 world_100_200))
     = snd (loadConfig file_100_200)
  /\ exists evs : list event,
       outbox (snd (on_message known_channels message_on_100 world_100_200))
       = ([] ++ evs)%list
       /\ (Forall (sends "<remove") evs \/ evs = [ProcessCommands message_on_100]).
Proof.
  apply (X9_on_message_effects known_channels message_on_100 world_100_200 _ (Ok tt)).
  vm_compute. reflexivity.
Defined.

(** ** The store and the router together *)

(** [str] of an [int] names the [int]: two ids with one text are one id. *)
Lemma repr_int_inj (a b : Z) : repr_int a = repr_int b -> a = b.
Proof.
  unfold repr_int. intros H.
  apply DecimalZ.to_int_inj.
  assert (Hi : forall z, NilZero.int_of_string (NilZero.string_of_int (Z.to_int z))
                         = Some (Z.to_int z)).
  { intros z. apply NilZero.isi; destruct z; simpl; try discriminate;
      intros [= E]; now apply (DecimalPos.Unsigned.to_uint_nonnil p). }
  pose proof (Hi a) as Ha. rewrite H, Hi in Ha. now injection Ha.
Qed.

Lemma on_message_forwards (get_channel : Z -> option channel) (m : message)
    (w : world) (relay : dict) (f1 : fs) (dests : list pyval) (ids : list Z) :
  author_bot m = false ->
  getRelayChannels (config_json w) = (Ok (PDict relay), f1) ->
  dict_get relay (repr_int (channel_id m)) = Some (PList dests) ->
  Forall2 (fun v i => py_int v = Ok i) dests ids ->
  on_message get_channel m w
  = (Ok tt, mkWorld f1 (outbox w ++ forwards get_channel (content m) ids) (arrivals w)).
Proof.
  intros Hbot Hget Hkey Hints. unfold on_message. rewrite Hbot.
  unfold bind at 1. unfold store. rewrite Hget.
  unfold bind at 1. unfold lift at 1. cbn [py_contains_str]. rewrite Hkey.
  unfold bind at 1. unfold lift at 1. cbn [py_getitem]. rewrite Hkey.
  unfold bind at 1. unfold lift at 1. cbn [py_iter].
  now rewrite (for_each_forwards get_channel (content m) dests ids Hints).
Qed.

Lemma on_message_dispatches (get_channel : Z -> option channel) (m : message)
    (w : world) (relay : dict) (f1 : fs) :
  author_bot m = false ->
  getRelayChannels (config_json w) = (Ok (PDict relay), f1) ->
  dict_get relay (repr_int (channel_id m)) = None ->
  on_message get_channel m w
  = (Ok tt, mkWorld f1 (outbox w ++ [ProcessCommands m]) (arrivals w)).
Proof.
  intros Hbot Hget Hkey. unfold on_message. rewrite Hbot.
  unfold bind at 1. unfold store. rewrite Hget.
  unfold bind at 1. unfold lift at 1. cbn [py_contains_str]. rewrite Hkey.
  reflexivity.
Qed.

(** X10.  A mutation for the source channel [c] does not change what the
    router does with a message on another channel: the same outcome and
    the same events, before and after, whatever the mutation returned. *)
Theorem X10_other_channels_route_as_before (get_channel : Z -> option channel)
    (m : message) (w : world) (o : op) (cd relay : dict) (f0 : fs) (c : Z) :
  author_bot m = false ->
  loadConfig (config_json w) = (Ok (PDict cd), f0) ->
  py_get (PDict cd) "relayChannels" (PDict []) = Ok (PDict relay) ->
  source_of o = repr_int c ->
  channel_id m <> c ->
  exists (r : result unit) (evs : list event),
    on_message get_channel m w = (r, mkWorld f0 (outbox w ++ evs) (arrivals w))
    /\ on_message get_channel m (with_file w (apply_op o (config_json w)))
       = (r, mkWorld (apply_op o (config_json w)) (outbox w ++ evs) (arrivals w)).
Proof.
  intros Hbot Hload Hrelay Hsrc Hne.
  destruct (valid_relay _ _ _ _ Hload Hrelay) as [Hv Hvr].
  destruct (on_message_by_entry get_channel m
              (dict_get relay (repr_int (channel_id m)))) as (r & evs & _ & Hrun).
  exists r, evs. split.
  - apply (Hrun w relay f0 Hbot); [|reflexivity].
    rewrite (getRelayChannels_loaded _ _ _ Hload). now rewrite Hrelay.
  - assert (Hkey : repr_int (channel_id m) <> source_of o).
    { rewrite Hsrc. intros E. now apply repr_int_inj in E. }
    destruct (apply_op_file (config_json w) f0 cd relay o Hload Hrelay)
      as [->|(relay' & -> & Hv' & Hsame)].
    + apply (Hrun (with_file w f0) relay f0 Hbot); [|reflexivity].
      destruct (loadConfig_settles _ _ _ Hload) as [_ Hagain]. cbn [with_file config_json].
      rewrite (getRelayChannels_loaded _ _ _ Hagain). now rewrite Hrelay.
    + destruct (getRelayChannels_after_set cd relay' Hv Hv') as (_ & _ & Hget).
      apply (Hrun (with_file w _) relay' _ Hbot Hget). now apply Hsame.
Qed.

Lemma X10_other_channels_route_as_before_witness :
  exists (r : result unit) (evs : list event),
    on_message known_channels message_on_100 world_100_200
    = (r, mkWorld file_100_200 ([] ++ evs) [])
    /\ on_message known_channels message_on_100
         (with_file world_100_200 (apply_op (addMapping "300" 400) file_100_200))
       = (r, mkWorld (apply_op (addMapping "300" 400) file_100_200) ([] ++ evs) []).
Proof.
  apply (X10_other_channels_route_as_before known_channels message_on_100 world_100_200
           (addMapping "300" 400) [("relayChannels", PDict relay_100_200)]
           relay_100_200 file_100_200 300).
  - reflexivity.
  - vm_compute. reflexivity.
  - reflexivity.
  - reflexivity.
  - discriminate.
Defined.

(** X11.  After [updateRelayChannels(str(c), d)] a message of a user on
    channel [c] goes to the destinations the channel had before, in their
    order, and then to [d]. *)
Theorem X11_added_destination_is_served (get_channel : Z -> option channel)
    (m : message) (w : world) (config : pyval) (relay : dict) (f0 : fs) (d : Z)
    (l0 : list pyval) (ids : list Z) :
  author_bot m = false ->
  loadConfig (config_json w) = (Ok config, f0) ->
  py_get config "relayChannels" (PDict []) = Ok (PDict relay) ->
  (dict_get relay (repr_int (channel_id m)) = None /\ l0 = []
   \/ dict_get relay (repr_int (channel_id m)) = Some (PList l0)) ->
  Forall2 (fun v i => py_int v = Ok i) l0 ids ->
  exists f1 : fs,
    updateRelayChannels (repr_int (channel_id m)) d (config_json w) = (Ok tt, f1)
    /\ on_message get_channel m (with_file w f1)
       = (Ok tt,
          mkWorld f1 (outbox w ++ forwards get_channel (content m) (ids ++ [d]))
            (arrivals w)).
Proof.
  intros Hbot Hload Hrelay Hs Hints.
  destruct (updateRelayChannels_then_get _ f0 config relay _ d l0 Hload Hrelay Hs)
    as (f1 & c1 & Hu & _ & _ & Hget).
  exists f1. split; [assumption|].
  apply (on_message_forwards get_channel m (with_file w f1) _ f1 (l0 ++ [PInt d])
           (ids ++ [d]) Hbot Hget).
  - apply dict_get_set_same.
  - apply Forall2_app; [assumption | now repeat constructor].
Qed.

Lemma X11_added_destination_is_served_witness :
  exists f1 : fs,
    updateRelayChannels "100" 300 file_100_200 = (Ok tt, f1)
    /\ on_message known_channels message_on_100 (with_file world_100_200 f1)
       = (Ok tt, mkWorld f1 [Sent 200 "<remove"; Sent 300 "<remove"] []).
Proof.
  apply (X11_added_destination_is_served known_channels message_on_100 world_100_200
           config_100_200 relay_100_200 file_100_200 300 [PInt 200] [200]).
  - reflexivity.
  - vm_compute. reflexivity.
  - reflexivity.
  - now right.
  - repeat constructor.
Defined.

(** X12.  After [removeRelayEntry(str(c))] on a channel that was a source,
    a message of a user on channel [c] is no longer relayed: it goes to
    [process_commands]. *)
Theorem X12_removed_source_dispatches (get_channel : Z -> option channel)
    (m : message) (w : world) (config : pyval) (relay : dict) (f0 : fs) (x : pyval) :
  author_bot m = false ->
  loadConfig (config_json w) = (Ok config, f0) ->
  py_get config "relayChannels" (PDict []) = Ok (PDict relay) ->
  dict_get relay (repr_int (channel_id m)) = Some x ->
  exists f1 : fs,
    removeRelayEntry (repr_int (channel_id m)) None (config_json w) = (Ok true, f1)
    /\ on_message get_channel m (with_file w f1)
       = (Ok tt, mkWorld f1 (outbox w ++ [ProcessCommands m]) (arrivals w)).
Proof.
  intros Hbot Hload Hrelay Hs.
  destruct (removeRelayEntry_all_then_get _ f0 config relay _ x Hload Hrelay Hs)
    as (f1 & Hr & Hget & Hgone).
  exists f1. split; [assumption|].
  now apply (on_message_dispatches get_channel m (with_file w f1) _ f1 Hbot Hget).
Qed.

Lemma X12_removed_source_dispatches_witness :
  exists f1 : fs,
    removeRelayEntry "100" None file_100_200 = (Ok true, f1)
    /\ on_message known_channels message_on_100 (with_file world_100_200 f1)
       = (Ok tt, mkWorld f1 [ProcessCommands message_on_100] []).
Proof.
  apply (X12_removed_source_dispatches known_channels message_on_100 world_100_200
           config_100_200 relay_100_200 file_100_200 (PList [PInt 200])).
  - reflexivity.
  - vm_compute. reflexivity.
  - reflexivity.
  - reflexivity.
Defined.

(** ** The [add] command *)

(** The only exception [int] raises on a string is [ValueError]. *)
Lemma int_of_str_outcomes (s : string) :
  (exists i, int_of_str s = Ok i) \/ int_of_str s = Raise ValueError.
Proof.
  unfold int_of_str.
  destruct (match rstrip_by int_space (lstrip_by int_space s) with
            | EmptyString => _
            | String c r => _
            end) as [neg body].
  destruct (plain_digits false body); [left; now eexists | now right].
Qed.


(** X13.  When both replies name a channel, [add] calls
    [updateRelayChannels] with [str] of the id of the source and the id of
    the destination, and confirms; when that call raises, the answer is
    the cancellation notice instead. *)
Theorem X13_add_flow_commits (get_channel : Z -> option channel) (ctx : context)
    (w : world) (sourceMsg destMsg : message) (arr1 arr2 : list (option message))
    (sourceChannel destChannel : channel) (r : result unit) (f' : fs) :
  next_matching (check_channel ctx) (arrivals w) = (Some sourceMsg, arr1) ->
  names_channel get_channel sourceMsg sourceChannel ->
  next_matching (check_channel ctx) arr1 = (Some destMsg, arr2) ->
  names_channel get_channel destMsg destChannel ->
  updateRelayChannels (repr_int sourceChannel) destChannel (config_json w) = (r, f') ->
  r <> Unmodelled ->
  add get_channel ctx w
  = (Ok tt,
     mkWorld f'
       (outbox w ++ [Sent (ctx_channel ctx) ask_add_source;
                     Sent (ctx_channel ctx) ask_add_destination;
                     Sent (ctx_channel ctx)
                       (match r with
                        | Ok _ => relay_added sourceChannel destChannel
                        | _ => cancelled
                        end)])
       arr2).
Proof.
  intros Hw1 Hsrc Hw2 Hdst Hup Hr.
  unfold add.
  unfold bind at 1. unfold send at 1, emit. cbv beta iota.
  unfold try_except.
  unfold bind at 1. unfold wait_for at 1. cbn [arrivals config_json outbox].
  rewrite Hw1.
  unfold bind at 1. rewrite (mentioned_or_typed_names _ _ _ _ Hsrc).
  unfold bind at 1. unfold send at 1, emit. cbn [arrivals config_json outbox].
  unfold bind at 1. unfold wait_for at 1. cbn [arrivals config_json outbox].
  rewrite Hw2.
  unfold bind at 1. rewrite (mentioned_or_typed_names _ _ _ _ Hdst).
  unfold bind at 1. unfold store. cbn [arrivals config_json outbox].
  rewrite Hup.
  destruct r as [[]|e|]; [| |now elim Hr];
    unfold send, emit; cbn [arrivals config_json outbox];
    now rewrite <- !List.app_assoc.
Qed.

Lemma X13_add_flow_commits_witness :
  add known_channels (mkContext 7 50) (mkWorld file_100_200 [] add_arrivals)
  = (Ok tt,
     mkWorld (snd (updateRelayChannels "100" 300 file_100_200))
       [Sent 50 ask_add_source; Sent 50 ask_add_destination;
        Sent 50 (relay_added 100 300)]
       []).
Proof.
  apply (X13_add_flow_commits known_channels (mkContext 7 50)
           (mkWorld file_100_200 [] add_arrivals)
           (mkMessage 7 false 50 "100" []) (mkMessage 7 false 50 "<#300>" [300])
           [Some (mkMessage 7 false 50 "<#300>" [300])] [] 100 300 (Ok tt)
           (snd (updateRelayChannels "100" 300 file_100_200))
           eq_refl
           (ex_intro _ 100 (conj eq_refl eq_refl))
           eq_refl eq_refl
           ltac:(vm_compute; reflexivity)).
  discriminate.
Defined.



(** X15.  A reply to [add] that mentions no channel and is no number ends
    the command with the cancellation notice, and a number that is the id
    of no channel the bot knows ends it with the notice of an invalid
    source; the file stays as it is and no second prompt is sent. *)
Theorem X15_add_flow_bad_source (get_channel : Z -> option channel) (ctx : context)
    (w : world) (sourceMsg : message) (arr1 : list (option message)) :
  next_matching (check_channel ctx) (arrivals w) = (Some sourceMsg, arr1) ->
  channel_mentions sourceMsg = [] ->
  (forall i, int_of_str (strip (content sourceMsg)) = Ok i -> get_channel i = None) ->
  add get_channel ctx w
  = (Ok tt,
     mkWorld (config_json w)
       (outbox w ++ [Sent (ctx_channel ctx) ask_add_source;
                     Sent (ctx_channel ctx)
                       (match int_of_str (strip (content sourceMsg)) with
                        | Ok _ => "Invalid source channel. Command cancelled."
                        | _ => cancelled
                        end)])
       arr1).
Proof.
  intros Hw1 Hm Hunknown.
  unfold add.
  unfold bind at 1. unfold send at 1, emit. cbv beta iota.
  unfold try_except.
  unfold bind at 1. unfold wait_for at 1. cbn [arrivals config_json outbox].
  rewrite Hw1.
  unfold bind at 1. unfold mentioned_or_typed. rewrite Hm.
  unfold bind at 1. unfold lift at 1.
  destruct (int_of_str (strip (content sourceMsg))) as [i|e|] eqn:Hi.
  - unfold ret. rewrite (Hunknown i eq_refl). unfold send, emit.
    cbn [arrivals config_json outbox]. now rewrite <- !List.app_assoc.
  - unfold send, emit. cbn [arrivals config_json outbox].
    now rewrite <- !List.app_assoc.
  - destruct (int_of_str_outcomes (strip (content sourceMsg))) as [(i & Hi')|Hi'];
      rewrite Hi in Hi'; discriminate.
Qed.

Lemma X15_add_flow_bad_source_witness :
  add known_channels (mkContext 7 50)
    (mkWorld file_100_200 [] [Some (mkMessage 7 false 50 "general" [])])
  = (Ok tt, mkWorld file_100_200 [Sent 50 ask_add_source; Sent 50 cancelled] [])
  /\ add known_channels (mkContext 7 50)
       (mkWorld file_100_200 [] [Some (mkMessage 7 false 50 "999" [])])
     = (Ok tt,
        mkWorld file_100_200
          [Sent 50 ask_add_source; Sent 50 "Invalid source channel. Command cancelled."] []).
Proof.
  split.
  - apply (X15_add_flow_bad_source known_channels (mkContext 7 50)
             (mkWorld file_100_200 [] [Some (mkMessage 7 false 50 "general" [])])
             (mkMessage 7 false 50 "general" []) []).
    + reflexivity.
    + reflexivity.
    + intros i H. vm_compute in H. discriminate.
  - apply (X15_add_flow_bad_source known_channels (mkContext 7 50)
             (mkWorld file_100_200 [] [Some (mkMessage 7 false 50 "999" [])])
             (mkMessage 7 false 50 "999" []) []).
    + reflexivity.
    + reflexivity.
    + intros i H. vm_compute in H. injection H as <-. reflexivity.
Defined.

(** ** The [remove] command beyond the reply [all] *)

(** X16.  When the second reply to [remove] is not [all] and names a
    channel, the flow calls [removeRelayEntry] with [str] of the id of the
    source and the id of that channel, and answers by the boolean it
    returns. *)
Theorem X16_remove_flow_destination (get_channel : Z -> option channel)
    (ctx : context) (w : world) (sourceMsg destMsg : message)
    (arr1 arr2 : list (option message)) (sourceChannel destChannel : channel)
    (success : bool) (f' : fs) :
  next_matching (check_channel ctx) (arrivals w) = (Some sourceMsg, arr1) ->
  names_channel get_channel sourceMsg sourceChannel ->
  next_matching (check_channel ctx) arr1 = (Some destMsg, arr2) ->
  lower (content destMsg) <> "all" ->
  names_channel get_channel destMsg destChannel ->
  removeRelayEntry (repr_int sourceChannel) (Some destChannel) (config_json w)
  = (Ok success, f') ->
  remove get_channel ctx w
  = (Ok tt,
     mkWorld f'
       (outbox w ++ [Sent (ctx_channel ctx) ask_source;
                     Sent (ctx_channel ctx) ask_all_or_destination;
                     Sent (ctx_channel ctx)
                       (if success then removed_one sourceChannel destChannel
                        else relay_not_found)])
       arr2).
Proof.
  intros Hw1 Hsrc Hw2 Hall Hdst Hrm.
  apply String.eqb_neq in Hall.
  unfold remove.
  unfold bind at 1. unfold send at 1, emit. cbv beta iota.
  unfold try_except at 1.
  unfold bind at 1. unfold wait_for at 1. cbn [arrivals config_json outbox].
  rewrite Hw1.
  unfold bind at 1. rewrite (mentioned_or_typed_names _ _ _ _ Hsrc).
  unfold bind at 1. unfold send at 1, emit. cbn [arrivals config_json outbox].
  unfold bind at 1. unfold wait_for at 1. cbn [arrivals config_json outbox].
  rewrite Hw2, Hall.
  unfold bind at 1.
  unfold names_channel in Hdst.
  destruct (channel_mentions destMsg) as [|c l].
  - destruct Hdst as (i & Hi & Hc).
    unfold try_except, bind at 1, lift, ret. rewrite Hi, Hc.
    unfold bind at 1. unfold store. cbn [arrivals config_json outbox]. rewrite Hrm.
    destruct success; unfold send, emit; cbn [arrivals config_json outbox];
      now rewrite <- !List.app_assoc.
  - subst c. unfold ret at 1.
    unfold bind at 1. unfold store. cbn [arrivals config_json outbox]. rewrite Hrm.
    destruct success; unfold send, emit; cbn [arrivals config_json outbox];
      now rewrite <- !List.app_assoc.
Qed.

Lemma X16_remove_flow_destination_witness :
  remove known_channels (mkContext 7 50) (mkWorld file_100_200 [] remove_one_arrivals)
  = (Ok tt,
     mkWorld (Some (json_dump defaultConfig))
       [Sent 50 ask_source; Sent 50 ask_all_or_destination;
        Sent 50 (removed_one 100 200)]
       []).
Proof.
  apply (X16_remove_flow_destination known_channels (mkContext 7 50)
           (mkWorld file_100_200 [] remove_one_arrivals)
           (mkMessage 7 false 50 "100" []) (mkMessage 7 false 50 "200" [])
           [Some (mkMessage 7 false 50 "200" [])] [] 100 200 true
           (Some (json_dump defaultConfig))
           eq_refl
           (ex_intro _ 100 (conj eq_refl eq_refl))
           eq_refl
           ltac:(vm_compute; discriminate)
           (ex_intro _ 200 (conj eq_refl eq_refl))
           ltac:(vm_compute; reflexivity)).
Defined.

(** X17.  A second reply to [remove] that is not [all], mentions no
    channel and is no number gets the notice of an invalid id; a number
    that is the id of no channel the bot knows gets the notice of an
    invalid channel.  Either way the file stays as it is. *)
Theorem X17_remove_flow_bad_destination (get_channel : Z -> option channel)
    (ctx : context) (w : world) (sourceMsg destMsg : message)
    (arr1 arr2 : list (option message)) (sourceChannel : channel) :
  next_matching (check_channel ctx) (arrivals w) = (Some sourceMsg, arr1) ->
  names_channel get_channel sourceMsg sourceChannel ->
  next_matching (check_channel ctx) arr1 = (Some destMsg, arr2) ->
  lower (content destMsg) <> "all" ->
  channel_mentions destMsg = [] ->
  (forall i, int_of_str (strip (content destMsg)) = Ok i -> get_channel i = None) ->
  remove get_channel ctx w
  = (Ok tt,
     mkWorld (config_json w)
       (outbox w ++ [Sent (ctx_channel ctx) ask_source;
                     Sent (ctx_channel ctx) ask_all_or_destination;
                     Sent (ctx_channel ctx)
                       (match int_of_str (strip (content destMsg)) with
                        | Ok _ => "Invalid destination channel. Command cancelled."
                        | _ => "Invalid destination channel ID. Command cancelled."
                        end)])
       arr2).
Proof.
  intros Hw1 Hsrc Hw2 Hall Hm Hunknown.
  apply String.eqb_neq in Hall.
  unfold remove.
  unfold bind at 1. unfold send at 1, emit. cbv beta iota.
  unfold try_except at 1.
  unfold bind at 1. unfold wait_for at 1. cbn [arrivals config_json outbox].
  rewrite Hw1.
  unfold bind at 1. rewrite (mentioned_or_typed_names _ _ _ _ Hsrc).
  unfold bind at 1. unfold send at 1, emit. cbn [arrivals config_json outbox].
  unfold bind at 1. unfold wait_for at 1. cbn [arrivals config_json outbox].
  rewrite Hw2, Hall, Hm.
  unfold bind at 1. unfold try_except, bind at 1, lift, ret.
  destruct (int_of_str_outcomes (strip (content destMsg))) as [(i & Hi)|Hi]; rewrite Hi.
  - rewrite (Hunknown i Hi). unfold send, emit. cbn [arrivals config_json outbox].
    now rewrite <- !List.app_assoc.
  - unfold bind, send, emit. cbn [arrivals config_json outbox].
    now rewrite <- !List.app_assoc.
Qed.

Lemma X17_remove_flow_bad_destination_witness :
  remove known_channels (mkContext 7 50)
    (mkWorld file_100_200 []
       [Some (mkMessage 7 false 50 "100" []); Some (mkMessage 7 false 50 "everything" [])])
  = (Ok tt,
     mkWorld file_100_200
       [Sent 50 ask_source; Sent 50 ask_all_or_destination;
        Sent 50 "Invalid destination channel ID. Command cancelled."]
       []).
Proof.
  apply (X17_remove_flow_bad_destination known_channels (mkContext 7 50)
           (mkWorld file_100_200 []
              [Some (mkMessage 7 false 50 "100" []);
               Some (mkMessage 7 false 50 "everything" [])])
           (mkMessage 7 false 50 "100" []) (mkMessage 7 false 50 "everything" [])
           [Some (mkMessage 7 false 50 "everything" [])] [] 100
           eq_refl
           (ex_intro _ 100 (conj eq_refl eq_refl))
           eq_refl
           ltac:(vm_compute; discriminate)
           eq_refl).
  intros i H. vm_compute in H. discriminate.
Defined.



(** ** Timeouts and the replies of others *)

(** X19.  When no reply comes to the first prompt, [add] and [remove]
    both answer with the cancellation notice and end: no second prompt,
    and the file is not even read. *)
Theorem X19_timeout_at_first_prompt (get_channel : Z -> option channel)
    (ctx : context) (w : world) (rest : list (option message)) :
  next_matching (check_channel ctx) (arrivals w) = (None, rest) ->
  add get_channel ctx w
  = (Ok tt,
     mkWorld (config_json w)
       (outbox w ++ [Sent (ctx_channel ctx) ask_add_source;
                     Sent (ctx_channel ctx) cancelled]) rest)
  /\ remove get_channel ctx w
     = (Ok tt,
        mkWorld (config_json w)
          (outbox w ++ [Sent (ctx_channel ctx) ask_source;
                        Sent (ctx_channel ctx) cancelled]) rest).
Proof.
  intros Hw1. split.
  - unfold add. unfold bind at 1. unfold send at 1, emit. cbv beta iota.
    unfold try_except. unfold bind at 1. unfold wait_for at 1.
    cbn [arrivals config_json outbox]. rewrite Hw1.
    unfold send, emit. cbn [arrivals config_json outbox].
    now rewrite <- !List.app_assoc.
  - unfold remove. unfold bind at 1. unfold send at 1, emit. cbv beta iota.
    unfold try_except at 1. unfold bind at 1. unfold wait_for at 1.
    cbn [arrivals config_json outbox]. rewrite Hw1.
    unfold send, emit. cbn [arrivals config_json outbox].
    now rewrite <- !List.app_assoc.
Qed.

Lemma X19_timeout_at_first_prompt_witness :
  add known_channels (mkContext 7 50) (mkWorld None [] [None])
  = (Ok tt, mkWorld None [Sent 50 ask_add_source; Sent 50 cancelled] [])
  /\ remove known_channels (mkContext 7 50) (mkWorld None [] [None])
     = (Ok tt, mkWorld None [Sent 50 ask_source; Sent 50 cancelled] []).
Proof.
  apply (X19_timeout_at_first_prompt known_channels (mkContext 7 50)
           (mkWorld None [] [None]) []).
  reflexivity.
Defined.

(** X20.  When the first reply names a channel and no reply comes to the
    second prompt, [add] and [remove] both answer with the cancellation
    notice; the file is as it was. *)
Theorem X20_timeout_at_second_prompt (get_channel : Z -> option channel)
    (ctx : context) (w : world) (sourceMsg : message)
    (arr1 rest : list (option message)) (sourceChannel : channel) :
  next_matching (check_channel ctx) (arrivals w) = (Some sourceMsg, arr1) ->
  names_channel get_channel sourceMsg sourceChannel ->
  next_matching (check_channel ctx) arr1 = (None, rest) ->
  add get_channel ctx w
  = (Ok tt,
     mkWorld (config_json w)
       (outbox w ++ [Sent (ctx_channel ctx) ask_add_source;
                     Sent (ctx_channel ctx) ask_add_destination;
                     Sent (ctx_channel ctx) cancelled]) rest)
  /\ remove get_channel ctx w
     = (Ok tt,
        mkWorld (config_json w)
          (outbox w ++ [Sent (ctx_channel ctx) ask_source;
                        Sent (ctx_channel ctx) ask_all_or_destination;
                        Sent (ctx_channel ctx) cancelled]) rest).
Proof.
  intros Hw1 Hsrc Hw2. split.
  - unfold add. unfold bind at 1. unfold send at 1, emit. cbv beta iota.
    unfold try_except. unfold bind at 1. unfold wait_for at 1.
    cbn [arrivals config_json outbox]. rewrite Hw1.
    unfold bind at 1. rewrite (mentioned_or_typed_names _ _ _ _ Hsrc).
    unfold bind at 1. unfold send at 1, emit. cbn [arrivals config_json outbox].
    unfold bind at 1. unfold wait_for at 1. cbn [arrivals config_json outbox].
    rewrite Hw2.
    unfold send, emit. cbn [arrivals config_json outbox].
    now rewrite <- !List.app_assoc.
  - unfold remove. unfold bind at 1. unfold send at 1, emit. cbv beta iota.
    unfold try_except at 1. unfold bind at 1. unfold wait_for at 1.
    cbn [arrivals config_json outbox]. rewrite Hw1.
    unfold bind at 1. rewrite (mentioned_or_typed_names _ _ _ _ Hsrc).
    unfold bind at 1. unfold send at 1, emit. cbn [arrivals config_json outbox].
    unfold bind at 1. unfold wait_for at 1. cbn [arrivals config_json outbox].
    rewrite Hw2.
    unfold send, emit. cbn [arrivals config_json outbox].
    now rewrite <- !List.app_assoc.
Qed.

Lemma X20_timeout_at_second_prompt_witness :
  add known_channels (mkContext 7 50)
    (mkWorld file_100_200 [] [Some (mkMessage 7 false 50 "100" []); None])
  = (Ok tt,
     mkWorld file_100_200
       [Sent 50 ask_add_source; Sent 50 ask_add_destination; Sent 50 cancelled] [])
  /\ remove known_channels (mkContext 7 50)
       (mkWorld file_100_200 [] [Some (mkMessage 7 false 50 "100" []); None])
     = (Ok tt,
        mkWorld file_100_200
          [Sent 50 ask_source; Sent 50 ask_all_or_destination; Sent 50 cancelled] []).
Proof.
  apply (X20_timeout_at_second_prompt known_channels (mkContext 7 50)
           (mkWorld file_100_200 [] [Some (mkMessage 7 false 50 "100" []); None])
           (mkMessage 7 false 50 "100" []) [None] [] 100).
  - reflexivity.
  - exists 100. now split.
  - reflexivity.
Defined.



(** ** A config without the field, and a well-formed config *)

(** X22.  A config object that has no [relayChannels] field counts as an
    empty mapping: [getRelayChannels] returns [{}], [removeRelayEntry]
    returns [False] without writing, and [updateRelayChannels] adds the
    field after the fields that are there, which it keeps in their order. *)
Theorem X22_missing_field_is_empty_mapping (f f1 : fs) (cd : dict) (s : string)
    (d : Z) (dopt : option Z) :
  loadConfig f = (Ok (PDict cd), f1) ->
  dict_get cd "relayChannels" = None ->
  getRelayChannels f = (Ok (PDict []), f1)
  /\ removeRelayEntry s dopt f = (Ok false, f1)
  /\ updateRelayChannels s d f
     = (Ok tt,
        Some (json_dump (PDict (cd ++ [("relayChannels", PDict [(s, PList [PInt d])])])))).
Proof.
  intros Hload Hnone.
  assert (Hrelay : py_get (PDict cd) "relayChannels" (PDict []) = Ok (PDict []))
    by (cbn [py_get]; now rewrite Hnone).
  repeat split.
  - rewrite (getRelayChannels_loaded _ _ _ Hload). now rewrite Hrelay.
  - apply (removeRelayEntry_absent f f1 (PDict cd) [] s dopt Hload Hrelay). now left.
  - rewrite (updateRelayChannels_spec f f1 cd [] s d [] Hload Hrelay); [|now left].
    unfold config_after_add. now rewrite (dict_set_fresh cd _ _ Hnone).
Qed.

Lemma X22_missing_field_is_empty_mapping_witness :
  getRelayChannels (Some "{}") = (Ok (PDict []), Some "{}")
  /\ removeRelayEntry "100" None (Some "{}") = (Ok false, Some "{}")
  /\ updateRelayChannels "100" 200 (Some "{}")
     = (Ok tt, Some (json_dump (single_relay "100" 200))).
Proof.
  apply (X22_missing_field_is_empty_mapping (Some "{}") (Some "{}") [] "100" 200 None).
  - vm_compute. reflexivity.
  - reflexivity.
Defined.

(** X23.  On a file that holds a well-formed config no mutation raises:
    [updateRelayChannels] returns, and [removeRelayEntry] returns [True]
    exactly when the source is a key and the destination, if one is
    given, is in its list. *)
Theorem X23_well_formed_never_raises (f : fs) (config : pyval) (relay : dict)
    (s : string) (d : Z) (dopt : option Z) :
  loadConfig f = (Ok config, f) ->
  well_formed config = true ->
  py_get config "relayChannels" (PDict []) = Ok (PDict relay) ->
  (exists f', updateRelayChannels s d f = (Ok tt, f'))
  /\ (exists f', removeRelayEntry s dopt f = (Ok (removable relay s dopt), f')).
Proof.
  intros Hload Hwf Hrelay.
  destruct (well_formed_parts config Hwf) as (cd & relay0 & -> & _ & Hrelay0 & Hall).
  rewrite Hrelay0 in Hrelay. injection Hrelay as <-.
  unfold removable.
  destruct (dict_get relay0 s) as [v|] eqn:E.
  - apply (forallb_dict_get _ _ _ _ Hall) in E as Hok.
    destruct (destinations_ok_list v Hok) as (x & l & -> & _).
    split.
    + eexists. apply (updateRelayChannels_spec f f cd relay0 s d (x :: l) Hload Hrelay0).
      now right.
    + destruct dopt as [z|].
      * destruct (existsb (eq_int z) (x :: l)) eqn:Hin.
        -- destruct (remove_first_found z _ Hin) as (l' & Hl').
           eexists.
           apply (removeRelayEntry_one f f cd relay0 s z _ l' Hload Hrelay0 E Hl').
        -- eexists.
           apply (removeRelayEntry_absent f f (PDict cd) relay0 s (Some z) Hload Hrelay0).
           right. now exists (x :: l), z.
      * eexists. apply (removeRelayEntry_all f f cd relay0 s _ Hload Hrelay0 E).
  - split.
    + eexists. apply (updateRelayChannels_spec f f cd relay0 s d [] Hload Hrelay0).
      now left.
    + eexists.
      apply (removeRelayEntry_absent f f (PDict cd) relay0 s dopt Hload Hrelay0).
      now left.
Qed.

Lemma X23_well_formed_never_raises_witness :
  (exists f', updateRelayChannels "100" 300 file_100_200 = (Ok tt, f'))
  /\ (exists f', removeRelayEntry "100" (Some 300) file_100_200 = (Ok false, f')).
Proof.
  apply (X23_well_formed_never_raises file_100_200 config_100_200 relay_100_200
           "100" 300 (Some 300)).
  - vm_compute. reflexivity.
  - reflexivity.
  - reflexivity.
Defined.
